(** * Ticketing system: the data-access layer of [ticketing_app.py]

    A shallow embedding of the class [TicketingSystem] and of the part of
    SQLite it drives.  The two tables are lists of records in rowid order,
    every method is a function in a state-and-exception monad over the
    database, and the clock read by [now_iso] is an argument of the methods
    that call it.

    Text is a [string] whose characters stand for code points below 256;
    NUL does not occur in it.  Values bound to statement parameters are the
    ones the fields of the [Ticket] dataclass admit: [str] or [None]. *)

From Stdlib Require Import ZArith String Ascii List Sorted Permutation Lia DecimalString.
From stdpp Require Import base option list sorting strings gmap.

Local Open Scope Z_scope.

(** ** SQLite: text, comparison, LIKE and ORDER BY *)

Module Sqlite.

(** A nullable TEXT value: [None] is NULL. *)
Definition text := option string.

(** BINARY collation, the default one of every column of the schema:
    [memcmp] on the characters, the shorter string first on a tie. *)
Definition compare_text (a b : string) : comparison := String.compare a b.

(** Three-valued logic of WHERE clauses: [None] is NULL. *)
Definition sql_or (a b : option bool) : option bool :=
  match a, b with
  | Some true, _ | _, Some true => Some true
  | Some false, Some false => Some false
  | _, _ => None
  end.

Definition sql_and (a b : option bool) : option bool :=
  match a, b with
  | Some false, _ | _, Some false => Some false
  | Some true, Some true => Some true
  | _, _ => None
  end.

(** [x = ?] with a TEXT parameter. *)
Definition sql_eq (x : text) (param : string) : option bool :=
  match x with
  | None => None
  | Some s => Some (bool_decide (s = param))
  end.

(** A row is kept by WHERE when the condition is true (not false, not NULL). *)
Definition is_true3 (v : option bool) : bool :=
  match v with Some true => true | _ => false end.

(** [sqlite3Tolower]: folds the 26 upper-case ASCII letters only. *)
Definition sqlite3Tolower (c : ascii) : ascii :=
  let n := N_of_ascii c in
  if ((65 <=? n) && (n <=? 90))%N then ascii_of_N (n + 32) else c.

Definition matchAll : ascii := "%"%char.
Definition matchOne : ascii := "_"%char.

(** The comparison of one pattern character [c] with one string character
    [c2] in [patternCompare], with [noCase] set as LIKE sets it. *)
Definition like_char (c c2 : ascii) : bool :=
  bool_decide (c = c2)
  || (bool_decide (sqlite3Tolower c = sqlite3Tolower c2)
      && (N_of_ascii c <? 128)%N && (N_of_ascii c2 <? 128)%N)
  || bool_decide (c = matchOne).

(** [patternCompare] for LIKE without ESCAPE: [%] matches any run of
    characters, [_] exactly one, any other character itself up to the case
    of ASCII letters. *)
Fixpoint patternCompare (zPattern : list ascii) : list ascii → bool :=
  match zPattern with
  | [] => λ zString, bool_decide (zString = [])
  | c :: zPattern' =>
      if bool_decide (c = matchAll) then
        fix skip (zString : list ascii) : bool :=
          patternCompare zPattern' zString
          || match zString with
             | [] => false
             | _ :: zString' => skip zString'
             end
      else
        λ zString,
          match zString with
          | [] => false
          | c2 :: zString' => like_char c c2 && patternCompare zPattern' zString'
          end
  end.

(** [x LIKE ?]: NULL when the left operand is NULL. *)
Definition sql_like (x : text) (pattern : string) : option bool :=
  match x with
  | None => None
  | Some s =>
      Some (patternCompare (list_ascii_of_string pattern) (list_ascii_of_string s))
  end.

(** Composition of ORDER BY terms: the first term that tells two rows apart
    decides. *)
Definition then_by (c1 c2 : comparison) : comparison :=
  match c1 with Eq => c2 | _ => c1 end.

(** A term followed by DESC. *)
Definition desc (c : comparison) : comparison := CompOpp c.

Section order_by.
Context {A : Type} (cmp : A → A → comparison).

Fixpoint place (x : A) (l : list A) : list A :=
    match l with
    | [] => [x]
    | y :: l' =>
        match cmp x y with
        | Gt => y :: place x l'
        | _ => x :: l
        end
    end.

  (** ORDER BY over the rows of a scan; rows that the terms do not tell
      apart stay in scan order. *)
Fixpoint order_by (l : list A) : list A :=
    match l with
    | [] => []
    | x :: l' => place x (order_by l')
    end.
End order_by.

(** A fresh rowid of an AUTOINCREMENT table: one more than the largest
    rowid the table has held, which is the largest one it holds since no
    statement of the program deletes a row or assigns an id. *)
Definition new_rowid (ids : list Z) : Z := 1 + foldr Z.max 0 ids.

End Sqlite.

Import Sqlite.

(** ** The schema created by [_init_db] *)

Definition STATUSES : list string := ["open"; "in_progress"; "closed"].
Definition PRIORITIES : list string := ["low"; "medium"; "high"; "urgent"].

(** The dataclass [Ticket]. *)
Module Ticket.
Record t := mk {
    id : option Z;
    title : string;
    description : string;
    status : string;
    priority : string;
    requester : option string;
    assignee : option string;
    tags : option string;
    created_at : option string;
    updated_at : option string
  }.
End Ticket.

(** A row of the table [tickets].  The columns declared NOT NULL hold a
    [string], the others a nullable [text]. *)
Module Row.
Record t := mk {
    id : Z;
    title : string;
    description : text;
    status : string;
    priority : string;
    requester : text;
    assignee : text;
    tags : text;
    created_at : string;
    updated_at : string
  }.
End Row.

(** A row of the SELECT of [list_tickets] and [search]: every column but
    [description], in the order of the SELECT list. *)
Module Summary.
Record t := mk {
    id : Z;
    title : string;
    status : string;
    priority : string;
    assignee : text;
    requester : text;
    tags : text;
    created_at : string;
    updated_at : string
  }.
End Summary.

(** A row of the table [comments]. *)
Module Comment.
Record t := mk {
    id : Z;
    ticket_id : Z;
    author : text;
    body : string;
    created_at : string
  }.
End Comment.

(** A row of the SELECT of [get_comments]. *)
Module CommentView.
Record t := mk {
    id : Z;
    author : text;
    body : string;
    created_at : string
  }.
End CommentView.

(** The columns of [tickets] that take a TEXT value.  These are the keys of
    the [updates] dictionary of [update_ticket]; the rowid alias [id] is not
    among them. *)
Inductive column :=
  | col_title | col_description | col_status | col_priority | col_requester
  | col_assignee | col_tags | col_created_at | col_updated_at.


(** [row[c]] *)
Definition column_value (c : column) (r : Row.t) : text :=
  match c with
  | col_title => Some (Row.title r)
  | col_description => Row.description r
  | col_status => Some (Row.status r)
  | col_priority => Some (Row.priority r)
  | col_requester => Row.requester r
  | col_assignee => Row.assignee r
  | col_tags => Row.tags r
  | col_created_at => Some (Row.created_at r)
  | col_updated_at => Some (Row.updated_at r)
  end.

(** The columns declared NOT NULL, in the order of the table. *)
Definition not_null_columns : list column :=
  [col_title; col_status; col_priority; col_created_at; col_updated_at].

(** The CHECK constraints, in the order of the table. *)
Definition check_constraints : list (column * list string) :=
  [(col_status, STATUSES); (col_priority, PRIORITIES)].

Inductive constraint :=
  | NOT_NULL (c : column)
  | CHECK (c : column)
  | FOREIGN_KEY.

(** The exceptions of [sqlite3] that the statements of the program raise on
    such values: every constraint failure is an [IntegrityError]. *)
Inductive exception :=
  | IntegrityError (failed : constraint).

Inductive result (A : Type) :=
  | Return (a : A)
  | Raise (e : exception).
Arguments Return {A} a.
Arguments Raise {A} e.

(** ** The connection *)

(** What the connection [self.conn] sees of the database: the two tables,
    each in rowid order. *)
Record Database := {
  tickets : list Row.t;
  comments : list Comment.t
}.

(** The database right after [_init_db] has created the tables. *)
Definition init_db : Database := {| tickets := []; comments := [] |}.

(** A method of [TicketingSystem]: it reads and writes the database and
    either returns or raises.  A statement that raises leaves the tables as
    they were. *)
Definition M (A : Type) : Type := Database → Database * result A.

#[global] Instance M_ret : MRet M := λ A a db, (db, Return a).
#[global] Instance M_bind : MBind M := λ A B f m db,
  match m db with
  | (db', Return a) => f a db'
  | (db', Raise e) => (db', Raise e)
  end.

Definition raise {A} (e : exception) : M A := λ db, (db, Raise e).
Definition select {A} (q : Database → A) : M A := λ db, (db, Return (q db)).

(** [self.conn.commit()]: makes the pending statement durable; the tables
    the connection sees are the same before and after. *)
Definition commit : M unit := mret ().

(** ** The statements *)

#[global] Instance column_eq_dec : EqDecision column.
Proof. solve_decision. Defined.

(** The value that [SET c1 = ?, c2 = ?, ...] gives column [c]: when a
    column is named more than once the rightmost assignment counts; [None]
    when the column is not named. *)
Fixpoint assigned (c : column) (sets : list (column * text)) : option text :=
  match sets with
  | [] => None
  | (c', v) :: sets' =>
      match assigned c sets' with
      | Some w => Some w
      | None => if decide (c' = c) then Some v else None
      end
  end.

(** The constraint an UPDATE with these assignments fails, if any.  Only
    the assigned columns are tested: first the NOT NULL columns, then the
    CHECK constraints (a CHECK passes on NULL), each in table order. *)
Definition violated (sets : list (column * text)) : option constraint :=
  match List.find (λ c, bool_decide (assigned c sets = Some None)) not_null_columns with
  | Some c => Some (NOT_NULL c)
  | None =>
      match List.find
              (λ k, match assigned k.1 sets with
                    | Some (Some s) => bool_decide (s ∉ k.2)
                    | _ => false
                    end) check_constraints with
      | Some k => Some (CHECK k.1)
      | None => None
      end
  end.

Definition new_text (c : column) (sets : list (column * text)) (old : text) : text :=
  default old (assigned c sets).

Definition new_string (c : column) (sets : list (column * text)) (old : string) : string :=
  match assigned c sets with
  | Some (Some s) => s
  | _ => old
  end.

(** The row after the assignments. *)
Definition assign (sets : list (column * text)) (r : Row.t) : Row.t :=
  {| Row.id := Row.id r;
     Row.title := new_string col_title sets (Row.title r);
     Row.description := new_text col_description sets (Row.description r);
     Row.status := new_string col_status sets (Row.status r);
     Row.priority := new_string col_priority sets (Row.priority r);
     Row.requester := new_text col_requester sets (Row.requester r);
     Row.assignee := new_text col_assignee sets (Row.assignee r);
     Row.tags := new_text col_tags sets (Row.tags r);
     Row.created_at := new_string col_created_at sets (Row.created_at r);
     Row.updated_at := new_string col_updated_at sets (Row.updated_at r) |}.

(** [UPDATE tickets SET ... WHERE id = ?]; returns [rowcount]. *)
Definition sql_update_tickets (sets : list (column * text)) (ticket_id : Z) : M Z :=
  λ db,
    let hit := filter (λ r, Row.id r = ticket_id) (tickets db) in
    match hit with
    | [] => (db, Return 0)
    | _ :: _ =>
        match violated sets with
        | Some k => (db, Raise (IntegrityError k))
        | None =>
            ({| tickets :=
                  (λ r, if decide (Row.id r = ticket_id) then assign sets r else r)
                    <$> tickets db;
                comments := comments db |},
             Return (Z.of_nat (length hit)))
        end
    end.

(** [INSERT INTO tickets (title, ..., updated_at) VALUES (?, ..., ?)];
    returns [lastrowid]. *)
Definition sql_insert_ticket
    (title : string) (description : text) (status priority : string)
    (requester assignee tags : text) (created_at updated_at : string) : M Z :=
  λ db,
    match violated [(col_status, Some status); (col_priority, Some priority)] with
    | Some k => (db, Raise (IntegrityError k))
    | None =>
        let rowid := new_rowid (Row.id <$> tickets db) in
        ({| tickets :=
              tickets db ++
                [Row.mk rowid title description status priority requester
                   assignee tags created_at updated_at];
            comments := comments db |},
         Return rowid)
    end.

(** [INSERT INTO comments (ticket_id, author, body, created_at) VALUES
    (?, ?, ?, ?)] under [PRAGMA foreign_keys = ON]; returns [lastrowid]. *)
Definition sql_insert_comment
    (ticket_id : Z) (author : text) (body created_at : string) : M Z :=
  λ db,
    if decide (ticket_id ∈ Row.id <$> tickets db) then
      let rowid := new_rowid (Comment.id <$> comments db) in
      ({| tickets := tickets db;
          comments := comments db ++ [Comment.mk rowid ticket_id author body created_at] |},
       Return rowid)
    else (db, Raise (IntegrityError FOREIGN_KEY)).

(** The SELECT list of [list_tickets] and [search]. *)
Definition summary (r : Row.t) : Summary.t :=
  Summary.mk (Row.id r) (Row.title r) (Row.status r) (Row.priority r)
    (Row.assignee r) (Row.requester r) (Row.tags r) (Row.created_at r)
    (Row.updated_at r).

(** [CASE status WHEN 'open' THEN 0 WHEN 'in_progress' THEN 1 ELSE 2 END] *)
Definition status_rank (status : string) : Z :=
  if decide (status = "open") then 0
  else if decide (status = "in_progress") then 1
  else 2.

(** [CASE priority WHEN 'urgent' THEN 0 WHEN 'high' THEN 1 WHEN 'medium'
    THEN 2 ELSE 3 END] *)
Definition priority_rank (priority : string) : Z :=
  if decide (priority = "urgent") then 0
  else if decide (priority = "high") then 1
  else if decide (priority = "medium") then 2
  else 3.

(** The ORDER BY of [list_tickets]. *)
Definition list_order (a b : Row.t) : comparison :=
  then_by (status_rank (Row.status a) ?= status_rank (Row.status b))
    (then_by (priority_rank (Row.priority a) ?= priority_rank (Row.priority b))
       (desc (compare_text (Row.created_at a) (Row.created_at b)))).

(** The ORDER BY of [search]: [updated_at DESC]. *)
Definition search_order (a b : Row.t) : comparison :=
  desc (compare_text (Row.updated_at a) (Row.updated_at b)).

(** [clause1 AND clause2 AND ...] where every clause is [column = ?]. *)
Definition where_all (clauses : list (column * string)) (r : Row.t) : bool :=
  is_true3
    (foldr sql_and (Some true) ((λ k, sql_eq (column_value k.1 r) k.2) <$> clauses)).

(** [title LIKE ? OR description LIKE ? OR tags LIKE ?] *)
Definition where_like (like : string) (r : Row.t) : bool :=
  is_true3
    (sql_or (sql_or (sql_like (Some (Row.title r)) like)
                    (sql_like (Row.description r) like))
            (sql_like (Row.tags r) like)).

(** ** The methods of [TicketingSystem] *)

(** Truth value of [d.get(key)] for a dictionary of optional strings: a
    missing key, [None] and the empty string are all false. *)
Definition get_truthy (d : gmap string text) (key : string) : option string :=
  match d !! key with
  | Some (Some s) => if decide (s = "") then None else Some s
  | _ => None
  end.

Definition create_ticket (now : string) (t : Ticket.t) : M Z :=
  let created := now in
  lastrowid ← sql_insert_ticket (Ticket.title t) (Some (Ticket.description t))
                 (Ticket.status t) (Ticket.priority t) (Ticket.requester t)
                 (Ticket.assignee t) (Ticket.tags t) created created;
  commit;;
  mret lastrowid.

Definition get_ticket (ticket_id : Z) : M (option Ticket.t) :=
  row ← select (λ db, head (filter (λ r, Row.id r = ticket_id) (tickets db)));
  match row with
  | None => mret None
  | Some row =>
      mret (Some {|
        Ticket.id := Some (Row.id row);
        Ticket.title := Row.title row;
        Ticket.description := default "" (Row.description row);
        Ticket.status := Row.status row;
        Ticket.priority := Row.priority row;
        Ticket.requester := Row.requester row;
        Ticket.assignee := Row.assignee row;
        Ticket.tags := Row.tags row;
        Ticket.created_at := Some (Row.created_at row);
        Ticket.updated_at := Some (Row.updated_at row) |})
  end.

Definition list_tickets (filters : option (gmap string text)) : M (list Summary.t) :=
  let filters := default ∅ filters in
  let clauses :=
    (if get_truthy filters "status" is Some v then [(col_status, v)] else [])
    ++ (if get_truthy filters "priority" is Some v then [(col_priority, v)] else [])
    ++ (if get_truthy filters "assignee" is Some v then [(col_assignee, v)] else []) in
  select (λ db,
    summary <$> order_by list_order (filter (λ r, where_all clauses r) (tickets db))).

Definition update_ticket (now : string) (ticket_id : Z)
    (updates : list (column * text)) : M bool :=
  match updates with
  | [] => mret false
  | _ :: _ =>
      let columns := updates.*1 ++ [col_updated_at] in
      let params := updates.*2 ++ [Some now] in
      rowcount ← sql_update_tickets (zip columns params) ticket_id;
      commit;;
      mret (bool_decide (0 < rowcount))
  end.

Definition add_comment (now : string) (ticket_id : Z) (author : text)
    (body : string) : M Z :=
  lastrowid ← sql_insert_comment ticket_id author body now;
  commit;;
  mret lastrowid.

Definition get_comments (ticket_id : Z) : M (list CommentView.t) :=
  select (λ db,
    (λ c, CommentView.mk (Comment.id c) (Comment.author c) (Comment.body c)
            (Comment.created_at c))
    <$> order_by (λ a b, Comment.id a ?= Comment.id b)
          (filter (λ c, Comment.ticket_id c = ticket_id) (comments db))).

Definition search (query : string) : M (list Summary.t) :=
  let like := "%" +:+ query +:+ "%" in
  select (λ db,
    summary <$> order_by search_order (filter (λ r, where_like like r) (tickets db))).

(** ** Export: [pandas.DataFrame], [to_csv] and the [csv] writer *)

Module Csv.

Abbreviation chars := (list ascii).

Definition comma : ascii := ","%char.
Definition dquote : ascii := "034"%char.
Definition LF : ascii := "010"%char.

(** A value of a [dict(row)]: the Python objects [sqlite3] builds from
    INTEGER, TEXT and NULL. *)
Inductive object :=
  | Int (z : Z)
  | Str (s : string)
  | PyNone.

Definition of_text (v : text) : object :=
  match v with Some s => Str s | None => PyNone end.

(** [dict(r)] for a row of [SELECT * FROM tickets]: the keys are the column
    names in table order. *)
Definition dict (r : Row.t) : list (string * object) :=
  [("id", Int (Row.id r));
   ("title", Str (Row.title r));
   ("description", of_text (Row.description r));
   ("status", Str (Row.status r));
   ("priority", Str (Row.priority r));
   ("requester", of_text (Row.requester r));
   ("assignee", of_text (Row.assignee r));
   ("tags", of_text (Row.tags r));
   ("created_at", Str (Row.created_at r));
   ("updated_at", Str (Row.updated_at r))].

Record DataFrame := {
  columns : list string;
  values : list (list object)
}.

Definition dict_get (d : list (string * object)) (key : string) : object :=
  match List.find (λ kv, bool_decide (kv.1 = key)) d with
  | Some kv => kv.2
  | None => PyNone
  end.

(** [pd.DataFrame(rows)] for a list of dictionaries that all have the keys
    of the first one: the columns are those keys, and there is none when the
    list is empty. *)
Definition pd_DataFrame (rows : list (list (string * object))) : DataFrame :=
  let columns := match rows with [] => [] | d :: _ => d.*1 end in
  {| columns := columns;
     values := (λ d, dict_get d <$> columns) <$> rows |}.

(** [str(z)] *)
Definition str_int (z : Z) : chars :=
  list_ascii_of_string (DecimalString.NilZero.string_of_int (Z.to_int z)).

(** The text [to_csv] hands to the writer for a value, with the default
    [na_rep]. *)
Definition cell (v : object) : chars :=
  match v with
  | Int z => str_int z
  | Str s => list_ascii_of_string s
  | PyNone => []
  end.

(** The [csv] writer with the dialect of [to_csv]: delimiter [,], quote
    character 34, [QUOTE_MINIMAL], doubled quotes, line terminator LF. *)
Definition special (c : ascii) : bool :=
  bool_decide (c = comma) || bool_decide (c = dquote) || bool_decide (c = LF).

Definition escape (field : chars) : chars :=
  field ≫= λ c, if decide (c = dquote) then [dquote; dquote] else [c].

Definition write_field (field : chars) : chars :=
  if existsb special field then [dquote] ++ escape field ++ [dquote] else field.

Fixpoint join (fields : list chars) : chars :=
  match fields with
  | [] => []
  | [f] => f
  | f :: fields' => f ++ [comma] ++ join fields'
  end.

Definition writerow (fields : list chars) : chars :=
  match fields with
  | [[]] => [dquote; dquote]
  | _ => join (write_field <$> fields)
  end ++ [LF].

(** [df.to_csv(buf, index=False)]; the result is [buf.getvalue()]. *)
Definition to_csv (df : DataFrame) : chars :=
  writerow (list_ascii_of_string <$> columns df)
  ++ mjoin ((λ row, writerow (cell <$> row)) <$> values df).

(** The UTF-8 bytes of a code point below 256. *)
Definition encode_char (c : ascii) : list Byte.byte :=
  let n := N_of_ascii c in
  if (n <? 128)%N then [byte_of_ascii c]
  else [byte_of_ascii (ascii_of_N (192 + n / 64));
        byte_of_ascii (ascii_of_N (128 + n mod 64))].

(** [s.encode] to UTF-8. *)
Definition encode_utf8 (s : chars) : list Byte.byte := s ≫= encode_char.

End Csv.

Definition export_csv_bytes : M (list Byte.byte) :=
  fetchall ← select (λ db, order_by (λ a b, Row.id a ?= Row.id b) (tickets db));
  let rows := Csv.dict <$> fetchall in
  let df := Csv.pd_DataFrame rows in
  let buf := Csv.to_csv df in
  mret (Csv.encode_utf8 buf).

(** ** The notions the properties are stated with *)

(** *** Listing *)

(** One optional equality predicate: an absent or empty filter matches
    every value of the field. *)
Definition passes (filter : option string) (v : text) : Prop :=
  match filter with
  | None => True
  | Some wanted => v = Some wanted
  end.

(** A ticket matches a filter set when it passes the predicates on
    [status], [priority] and [assignee] together. *)
Definition matches (filters : gmap string text) (r : Row.t) : Prop :=
  passes (get_truthy filters "status") (Some (Row.status r))
  ∧ passes (get_truthy filters "priority") (Some (Row.priority r))
  ∧ passes (get_truthy filters "assignee") (Row.assignee r).

#[global] Instance passes_dec filter v : Decision (passes filter v).
Proof. destruct filter; simpl; apply _. Defined.

#[global] Instance matches_dec filters r : Decision (matches filters r).
Proof. unfold matches. apply _. Defined.

(** The three-level order of a listing: status rank, then priority rank,
    then the newer [created_at] first. *)
Definition list_before (a b : Summary.t) : Prop :=
  status_rank (Summary.status a) < status_rank (Summary.status b)
  ∨ (status_rank (Summary.status a) = status_rank (Summary.status b)
     ∧ (priority_rank (Summary.priority a) < priority_rank (Summary.priority b)
        ∨ (priority_rank (Summary.priority a) = priority_rank (Summary.priority b)
           ∧ String.le (Summary.created_at b) (Summary.created_at a)))).

(** *** Searching *)

(** Two characters that differ at most in case. *)
Definition same_letter (c d : ascii) : bool :=
  bool_decide (sqlite3Tolower c = sqlite3Tolower d).

Fixpoint starts_with (query s : list ascii) : bool :=
  match query, s with
  | [], _ => true
  | _ :: _, [] => false
  | c :: query', d :: s' => same_letter c d && starts_with query' s'
  end.

(** [query] occurs in [s] as a substring, case aside. *)
Fixpoint occurs_in (query s : list ascii) : bool :=
  starts_with query s
  || match s with
     | [] => false
     | _ :: s' => occurs_in query s'
     end.




(** The order of a search result: the newer [updated_at] first. *)
Definition search_before (a b : Summary.t) : Prop :=
  String.le (Summary.updated_at b) (Summary.updated_at a).

(** *** Updating *)


(** *** Histories of calls *)

Inductive call :=
  | Create (t : Ticket.t)
  | Get (ticket_id : Z)
  | List (filters : option (gmap string text))
  | Update (ticket_id : Z) (updates : list (column * text))
  | AddComment (ticket_id : Z) (author : text) (body : string)
  | GetComments (ticket_id : Z)
  | Search (query : string)
  | Export.

(** The database after a call made when the clock reads [now]; a call that
    raises leaves it as the statement that failed left it. *)
Definition perform (now : string) (c : call) (db : Database) : Database :=
  match c with
  | Create t => (create_ticket now t db).1
  | Get ticket_id => (get_ticket ticket_id db).1
  | List filters => (list_tickets filters db).1
  | Update ticket_id updates => (update_ticket now ticket_id updates db).1
  | AddComment ticket_id author body => (add_comment now ticket_id author body db).1
  | GetComments ticket_id => (get_comments ticket_id db).1
  | Search query => (search query db).1
  | Export => (export_csv_bytes db).1
  end.

(** A history: the calls in order, each with the reading of the clock at
    the call. *)
Fixpoint run (history : list (string * call)) (db : Database) : Database :=
  match history with
  | [] => db
  | (now, c) :: history' => run history' (perform now c db)
  end.

(** The clock never goes back. *)
Definition monotone (history : list (string * call)) : Prop :=
  Sorted String.le history.*1.

(** No update of the history assigns [created_at]. *)
Definition keeps_created_at (c : call) : Prop :=
  match c with
  | Update _ updates => col_created_at ∉ updates.*1
  | _ => True
  end.

(** [created_at ≤ updated_at] on every ticket. *)
Definition timestamps_ordered (db : Database) : Prop :=
  Forall (λ r, String.le (Row.created_at r) (Row.updated_at r)) (tickets db).

(** *** Reading an export back *)

Module Reader.
Import Csv.







End Reader.



(** ** Fixtures *)

Definition ticket (title status priority : string) (tags : text) : Ticket.t :=
  Ticket.mk None title "" status priority None None tags None None.

(** Tickets A(open, low), B(open, urgent) and C(closed, urgent), created
    when the clock reads 1, 2 and 3. *)
Definition fixture : Database :=
  run [("1", Create (ticket "A" "open" "low" None));
       ("2", Create (ticket "B" "open" "urgent" None));
       ("3", Create (ticket "C" "closed" "urgent" None))] init_db.



(** *** Timestamps *)

(** Every ticket was created no later than it was last updated, and was
    last updated no later than [t]. *)
Definition stamped_by (t : string) (db : Database) : Prop :=
  Forall (λ r, String.le (Row.created_at r) (Row.updated_at r)
               ∧ String.le (Row.updated_at r) t) (tickets db).

(** A history that keeps [created_at], and one that does not. *)
Definition history_ok : list (string * call) :=
  [("1", Create (ticket "A" "open" "low" None));
   ("2", Update 1 [(col_status, Some "closed")]);
   ("2", AddComment 1 None "done");
   ("3", Search "A")].

Definition history_backdated : list (string * call) :=
  [("1", Create (ticket "A" "open" "low" None));
   ("2", Update 1 [(col_created_at, Some "9")])].

(** ** The forms of the Streamlit shell

    Each form is modelled by what the script does once the form is
    submitted, as a function of the values of its widgets.  The rendering of
    the widgets and [st.experimental_rerun()], which ends the run of the
    script after a form was handled, are left out. *)

Module Py.

(** [c.isspace()] for a code point below 256. *)
Definition isspace (c : ascii) : bool :=
  let n := N_of_ascii c in
  ((9 <=? n) && (n <=? 13) || (28 <=? n) && (n <=? 32)
   || (n =? 133) || (n =? 160))%N.

Fixpoint lstrip (s : string) : string :=
  match s with
  | EmptyString => EmptyString
  | String c s' => if isspace c then lstrip s' else s
  end.

Fixpoint rstrip (s : string) : string :=
  match s with
  | EmptyString => EmptyString
  | String c s' =>
      match rstrip s' with
      | EmptyString => if isspace c then EmptyString else String c EmptyString
      | kept => String c kept
      end
  end.

(** [s.strip()] *)
Definition strip (s : string) : string := rstrip (lstrip s).

(** [s or None] for a string, and for an optional string. *)
Definition or_none (s : string) : text :=
  if decide (s = "") then None else Some s.

Definition opt_or_none (v : text) : text :=
  match v with
  | Some s => or_none s
  | None => None
  end.

(** [str(z)] *)
Definition str (z : Z) : string := string_of_list_ascii (Csv.str_int z).

End Py.

(** What a form shows after it ran: [st.success], [st.warning], [st.info]. *)
Inductive notice :=
  | success (message : string)
  | warning (message : string)
  | info (message : string).

(** The body of [if submitted:] in the form [create_ticket_form], on the
    values of its widgets. *)
Definition create_ticket_form (now : string)
    (title description requester assignee tags priority status : string) : M notice :=
  if decide (Py.strip title = "") then mret (warning "Title is required.")
  else
    let t := {|
      Ticket.id := None;
      Ticket.title := Py.strip title;
      Ticket.description := Py.strip description;
      Ticket.status := status;
      Ticket.priority := priority;
      Ticket.requester := Py.or_none (Py.strip requester);
      Ticket.assignee := Py.or_none (Py.strip assignee);
      Ticket.tags := Py.or_none (Py.strip tags);
      Ticket.created_at := None;
      Ticket.updated_at := None |} in
    new_id ← create_ticket now t;
    mret (success ("Created ticket #" +:+ Py.str new_id)).

(** The rows of the tab [tab_list], on the values of the sidebar widgets. *)
Definition tab_list (f_status f_priority f_assignee q : string) : M (list Summary.t) :=
  let filters : gmap string text :=
    <["status" := Py.or_none f_status]>
      (<["priority" := Py.or_none f_priority]>
         {["assignee" := Py.or_none (Py.strip f_assignee)]}) in
  if decide (Py.strip q = "") then list_tickets (Some filters)
  else search (Py.strip q).

(** The dictionary [updates] that the form [edit_ticket_...] builds from the
    ticket shown and the values of its widgets, in insertion order. *)
Definition edit_updates (ticket : Ticket.t)
    (new_title new_desc new_priority new_tags new_assignee new_status : string)
    : list (column * text) :=
  (if decide (new_title ≠ Ticket.title ticket)
   then [(col_title, Some (Py.strip new_title))] else [])
  ++ (if decide (new_desc ≠ Ticket.description ticket)
      then [(col_description, Some (Py.strip new_desc))] else [])
  ++ (if decide (new_priority ≠ Ticket.priority ticket)
      then [(col_priority, Some new_priority)] else [])
  ++ (if decide (Py.or_none new_tags ≠ Py.opt_or_none (Ticket.tags ticket))
      then [(col_tags, Py.or_none (Py.strip new_tags))] else [])
  ++ (if decide (Py.or_none new_assignee ≠ Py.opt_or_none (Ticket.assignee ticket))
      then [(col_assignee, Py.or_none (Py.strip new_assignee))] else [])
  ++ (if decide (new_status ≠ Ticket.status ticket)
      then [(col_status, Some new_status)] else []).

(** The body of [if do_update:] in the form [edit_ticket_...] of the ticket
    shown.  With [ticket.id] at [None] the UPDATE would compare [id] with
    NULL and match no row. *)
Definition edit_ticket_form (now : string) (ticket : Ticket.t)
    (new_title new_desc new_priority new_tags new_assignee new_status : string)
    : M notice :=
  let updates :=
    edit_updates ticket new_title new_desc new_priority new_tags new_assignee
      new_status in
  match updates with
  | [] => mret (info "Nothing to change.")
  | _ :: _ =>
      ok ← match Ticket.id ticket with
           | Some ticket_id => update_ticket now ticket_id updates
           | None => mret false
           end;
      mret (if ok : bool then success "Ticket updated."
            else warning "No changes saved.")
  end.

(** The body of [if add_c:] in the form [add_comment_...] of the ticket
    shown; [ticket_id] is its [ticket.id], the integer [get_ticket] read from
    the row. *)
Definition add_comment_form (now : string) (ticket_id : Z) (c_author c_body : string)
    : M notice :=
  if decide (Py.strip c_body = "") then mret (warning "Comment cannot be empty.")
  else
    add_comment now ticket_id (Py.or_none (Py.strip c_author)) (Py.strip c_body);;
    mret (success "Comment added.").

(** What a user does in the shell: submit one of the three forms or look at
    the list. *)
Inductive action :=
  | SubmitCreate (title description requester assignee tags priority status : string)
  | ShowList (f_status f_priority f_assignee q : string)
  | SubmitEdit (sel_id : Z)
      (new_title new_desc new_priority new_tags new_assignee new_status : string)
  | SubmitComment (sel_id : Z) (c_author c_body : string).

(** The database after an action made when the clock reads [now].  The two
    forms of the tab [tab_detail] are shown for the ticket that
    [get_ticket] returns for the selected id, and not at all when the id is
    0 ([if not sel_id]) or when [get_ticket] returns [None]. *)
Definition act (now : string) (a : action) (db : Database) : Database :=
  match a with
  | SubmitCreate title description requester assignee tags priority status =>
      (create_ticket_form now title description requester assignee tags priority
         status db).1
  | ShowList f_status f_priority f_assignee q =>
      (tab_list f_status f_priority f_assignee q db).1
  | SubmitEdit sel_id new_title new_desc new_priority new_tags new_assignee new_status =>
      if decide (sel_id = 0) then db
      else
        match get_ticket sel_id db with
        | (db', Return (Some ticket)) =>
            (edit_ticket_form now ticket new_title new_desc new_priority new_tags
               new_assignee new_status db').1
        | (db', _) => db'
        end
  | SubmitComment sel_id c_author c_body =>
      if decide (sel_id = 0) then db
      else
        match get_ticket sel_id db with
        | (db', Return (Some ticket)) =>
            match Ticket.id ticket with
            | Some ticket_id => (add_comment_form now ticket_id c_author c_body db').1
            | None => db'
            end
        | (db', _) => db'
        end
  end.

Fixpoint session (actions : list (string * action)) (db : Database) : Database :=
  match actions with
  | [] => db
  | (now, a) :: actions' => session actions' (act now a db)
  end.

(** *** Notions for the further properties *)

(** The ticket [get_ticket] builds from a row. *)
Definition ticket_of_row (row : Row.t) : Ticket.t :=
  {| Ticket.id := Some (Row.id row);
     Ticket.title := Row.title row;
     Ticket.description := default "" (Row.description row);
     Ticket.status := Row.status row;
     Ticket.priority := Row.priority row;
     Ticket.requester := Row.requester row;
     Ticket.assignee := Row.assignee row;
     Ticket.tags := Row.tags row;
     Ticket.created_at := Some (Row.created_at row);
     Ticket.updated_at := Some (Row.updated_at row) |}.

(** The SELECT list of [get_comments]. *)
Definition comment_view (c : Comment.t) : CommentView.t :=
  CommentView.mk (Comment.id c) (Comment.author c) (Comment.body c)
    (Comment.created_at c).


(** [matches] on a row of a listing. *)
Definition summary_matches (filters : gmap string text) (s : Summary.t) : Prop :=
  passes (get_truthy filters "status") (Some (Summary.status s))
  ∧ passes (get_truthy filters "priority") (Some (Summary.priority s))
  ∧ passes (get_truthy filters "assignee") (Summary.assignee s).

#[global] Instance summary_matches_dec filters s : Decision (summary_matches filters s).
Proof. unfold summary_matches. apply _. Defined.

(** The value [v] fits column [c]: not NULL where the column is NOT NULL,
    and within the CHECK list where the column has one. *)
Definition fits (c : column) (v : text) : Prop :=
  match v with
  | None => c ∉ not_null_columns
  | Some s =>
      match c with
      | col_status => s ∈ STATUSES
      | col_priority => s ∈ PRIORITIES
      | _ => True
      end
  end.

(** What one call or one action may have written when the clock reads
    [now]: nothing, a new ticket, the assignments of an UPDATE on the rows of
    one id, or a new comment on a stored ticket. *)
Inductive written (now : string) (db : Database) : Database → Prop :=
  | written_nothing : written now db db
  | written_ticket (t : Ticket.t) :
      Ticket.status t ∈ STATUSES →
      Ticket.priority t ∈ PRIORITIES →
      written now db
        {| tickets :=
             tickets db ++
               [Row.mk (new_rowid (Row.id <$> tickets db)) (Ticket.title t)
                  (Some (Ticket.description t)) (Ticket.status t)
                  (Ticket.priority t) (Ticket.requester t) (Ticket.assignee t)
                  (Ticket.tags t) now now];
           comments := comments db |}
  | written_update (ticket_id : Z) (updates : list (column * text)) :
      violated (updates ++ [(col_updated_at, Some now)]) = None →
      written now db
        {| tickets :=
             (λ r, if decide (Row.id r = ticket_id)
                   then assign (updates ++ [(col_updated_at, Some now)]) r else r)
               <$> tickets db;
           comments := comments db |}
  | written_comment (ticket_id : Z) (author : text) (body : string) :
      ticket_id ∈ Row.id <$> tickets db →
      written now db
        {| tickets := tickets db;
           comments :=
             comments db ++
               [Comment.mk (new_rowid (Comment.id <$> comments db)) ticket_id author
                  body now] |}.

(** A session of the shell. *)
Definition session_ok : list (string * action) :=
  [("1", SubmitCreate "disk full" "" "ann" "" "" "high" "open");
   ("2", SubmitEdit 1 "disk full" "cleaned" "low" "" "bob" "closed");
   ("2", SubmitComment 1 "bob" "done");
   ("3", ShowList "" "" "" "disk")].

(** Two stored tickets. *)
Definition two_tickets : Database :=
  run [("1", Create (ticket "first" "open" "low" None));
       ("2", Create (ticket "second" "closed" "high" (Some "net")))] init_db.

(** * Properties *)

(** ** ORDER BY *)

Section order_by_facts.
Context {A : Type} (cmp : A → A → comparison).




(** When the comparison never says [Gt] in both directions, neighbours of
    the result are in order. *)
Hypothesis cmp_Gt : ∀ x y, cmp x y = Gt → cmp y x ≠ Gt.



End order_by_facts.

(** ** Comparison of text *)




(** ** Listing *)




#[global] Instance list_before_trans : Transitive list_before.
Proof.
  intros a b c Hab Hbc. unfold list_before in *.
  destruct Hab as [|[? [|[? ?]]]], Hbc as [|[? [|[? ?]]]];
    first [ left; lia
          | right; split; [lia|];
            first [ left; lia | right; split; [lia|]; by etrans ] ].
Qed.



(** ** Updating *)

Lemma zip_assignments (updates : list (column * text)) (c : column) (v : text) :
  zip (updates.*1 ++ [c]) (updates.*2 ++ [v]) = updates ++ [(c, v)].
Proof. induction updates as [|[c' v'] updates IH]; csimpl; [done|]. by rewrite IH. Qed.

Lemma assigned_snoc (c c' : column) (v : text) (sets : list (column * text)) :
  assigned c (sets ++ [(c', v)])
  = if decide (c' = c) then Some v else assigned c sets.
Proof.
  induction sets as [|[c'' w] sets IH]; simpl; [done|].
  rewrite IH. by destruct (decide (c' = c)).
Qed.

(** In a patch that names a column once, the value assigned to the column
    is the one the patch pairs it with. *)
Lemma assigned_elem_of (c : column) (v : text) (updates : list (column * text)) :
  NoDup updates.*1 → (c, v) ∈ updates → assigned c updates = Some v.
Proof.
  induction updates as [|[c' v'] updates IH]; simpl.
  { by intros _ ?%elem_of_nil. }
  intros [Hc' Hnd]%NoDup_cons [Heq|Hin]%elem_of_cons.
  - simplify_eq. destruct (assigned c' updates) as [w|] eqn:Hw.
    + exfalso. apply Hc'. clear -Hw.
      induction updates as [|[c'' w'] updates IH]; simpl in *; [done|].
      destruct (assigned c' updates); [right; by apply IH|].
      destruct (decide (c'' = c')); simplify_eq. by left.
    + by rewrite decide_True.
  - by rewrite (IH Hnd Hin).
Qed.

Lemma assigned_None (c : column) (updates : list (column * text)) :
  assigned c updates = None ↔ c ∉ updates.*1.
Proof.
  induction updates as [|[c' v'] updates IH]; simpl.
  { split; [intros _ ?%elem_of_nil|]; done. }
  rewrite not_elem_of_cons, <- IH.
  destruct (assigned c updates); [by split; [|intros []]|].
  destruct (decide (c' = c)) as [->|]; by split; [|intros []].
Qed.

Lemma violated_None (sets : list (column * text)) :
  violated sets = None →
  (∀ c, c ∈ not_null_columns → assigned c sets ≠ Some None)
  ∧ (∀ c allowed s, (c, allowed) ∈ check_constraints →
       assigned c sets = Some (Some s) → s ∈ allowed).
Proof.
  unfold violated. intros H.
  destruct (List.find _ not_null_columns) eqn:Hnn; [done|].
  destruct (List.find _ check_constraints) eqn:Hck; [done|]. split.
  - intros c Hc%list_elem_of_In Hnull.
    apply (find_none _ _ Hnn) in Hc. by rewrite bool_decide_eq_false in Hc.
  - intros c allowed s Hc%list_elem_of_In Hs.
    apply (find_none _ _ Hck) in Hc. simpl in Hc. rewrite Hs in Hc.
    rewrite bool_decide_eq_false in Hc. by apply dec_stable.
Qed.


(** The columns of a row after the assignments of an accepted UPDATE. *)
Lemma assign_column (sets : list (column * text)) (r : Row.t) (c : column) :
  violated sets = None →
  column_value c (assign sets r) = default (column_value c r) (assigned c sets).
Proof.
  intros [Hnn _]%violated_None.
  destruct c; simpl; unfold new_string, new_text; try done;
    match goal with
    | |- context [assigned ?c sets] =>
        pose proof (Hnn c) as Hc; destruct (assigned c sets) as [[?|]|]; try done;
        destruct Hc; [unfold not_null_columns; set_solver | done]
    end.
Qed.

Lemma update_ticket_eq (now : string) (ticket_id : Z)
    (updates : list (column * text)) (db : Database) :
  updates ≠ [] →
  update_ticket now ticket_id updates db
  = let sets := updates ++ [(col_updated_at, Some now)] in
    if decide (ticket_id ∈ Row.id <$> tickets db) then
      match violated sets with
      | Some k => (db, Raise (IntegrityError k))
      | None =>
          ({| tickets :=
                (λ r, if decide (Row.id r = ticket_id) then assign sets r else r)
                  <$> tickets db;
              comments := comments db |}, Return true)
      end
    else (db, Return false).
Proof.
  intros Hne. destruct updates as [|u updates]; [done|].
  unfold update_ticket. rewrite zip_assignments.
  unfold mbind, M_bind, sql_update_tickets, commit, mret, M_ret.
  destruct (filter _ (tickets db)) as [|r hit] eqn:Hhit.
  - rewrite decide_False; [done|].
    intros (r & -> & Hr)%list_elem_of_fmap.
    assert (r ∈ filter (λ r0, Row.id r0 = Row.id r) (tickets db)) as Hin
      by by apply list_elem_of_filter.
    rewrite Hhit in Hin. by apply elem_of_nil in Hin.
  - rewrite decide_True.
    2:{ assert (r ∈ filter (λ r0, Row.id r0 = ticket_id) (tickets db)) as Hin
          by (rewrite Hhit; left).
        apply list_elem_of_filter in Hin as [<- Hin].
        apply list_elem_of_fmap. eauto. }
    simpl. destruct (violated _); [done|].
    rewrite bool_decide_true; [done|]. simpl. lia.
Qed.

(** C3. For every ticket id, [update_ticket] with an empty patch returns
    false and leaves the whole database, [updated_at] included, as it was. *)
Theorem update_ticket_empty_patch (now : string) (ticket_id : Z) (db : Database) :
  update_ticket now ticket_id [] db = (db, Return false).
Proof. reflexivity. Qed.






(** ** Comments *)



(** C9. For every id of a stored ticket, every author and every body (the
    non-empty ones in particular), [add_comment] returns the id of a new
    comment appended to the comments, and the table of tickets is the same
    afterwards: no field of any ticket changes, [updated_at] included. *)
Theorem add_comment_keeps_tickets (now : string) (ticket_id : Z) (author : text)
    (body : string) (db : Database) :
  ticket_id ∈ Row.id <$> tickets db →
  ∃ comment_id db',
    add_comment now ticket_id author body db = (db', Return comment_id)
    ∧ comments db' = comments db ++ [Comment.mk comment_id ticket_id author body now]
    ∧ tickets db' = tickets db
    ∧ Row.updated_at <$> tickets db' = Row.updated_at <$> tickets db.
Proof.
  intros Hin. unfold add_comment, mbind, M_bind, sql_insert_comment.
  rewrite decide_True by done. simpl. by eexists _, _.
Qed.

Lemma add_comment_keeps_tickets_witness :
  ∃ comment_id db',
    add_comment "8" 2 (Some "ann") "hi" fixture = (db', Return comment_id)
    ∧ comments db' = comments fixture ++ [Comment.mk comment_id 2 (Some "ann") "hi" "8"]
    ∧ tickets db' = tickets fixture
    ∧ Row.updated_at <$> tickets db' = Row.updated_at <$> tickets fixture.
Proof.
  apply (add_comment_keeps_tickets "8" 2 (Some "ann") "hi" fixture).
  apply (bool_decide_unpack _). vm_compute. exact I.
Defined.

(** ** Timestamps *)

Lemma stamped_by_later (t t' : string) (db : Database) :
  String.le t t' → stamped_by t db → stamped_by t' db.
Proof.
  intros Ht H. eapply Forall_impl; [exact H|].
  intros r [? ?]. split; [done|]. by etrans.
Qed.

Lemma create_ticket_eq (now : string) (t : Ticket.t) (db : Database) :
  create_ticket now t db
  = match violated [(col_status, Some (Ticket.status t));
                    (col_priority, Some (Ticket.priority t))] with
    | Some k => (db, Raise (IntegrityError k))
    | None =>
        let rowid := new_rowid (Row.id <$> tickets db) in
        ({| tickets :=
              tickets db ++
                [Row.mk rowid (Ticket.title t) (Some (Ticket.description t))
                   (Ticket.status t) (Ticket.priority t) (Ticket.requester t)
                   (Ticket.assignee t) (Ticket.tags t) now now];
            comments := comments db |}, Return rowid)
    end.
Proof.
  unfold create_ticket, mbind, M_bind, sql_insert_ticket.
  by destruct (violated _).
Qed.

Lemma add_comment_tickets (now : string) (ticket_id : Z) (author : text)
    (body : string) (db : Database) :
  tickets (add_comment now ticket_id author body db).1 = tickets db.
Proof.
  unfold add_comment, mbind, M_bind, sql_insert_comment. by destruct (decide _).
Qed.

(** One call made at [now], no earlier than the last stamp, keeps the
    stamps in order. *)
Lemma perform_stamped (t now : string) (c : call) (db : Database) :
  String.le t now → keeps_created_at c → stamped_by t db →
  stamped_by now (perform now c db).
Proof.
  intros Ht Hc Hdb. pose proof (stamped_by_later _ _ db Ht Hdb) as Hnow.
  destruct c as [tk|ticket_id|filters|ticket_id updates|ticket_id author body
                |ticket_id|query|]; simpl;
    [ | by unfold get_ticket, mbind, M_bind, select; destruct (head _)
      | done | | | done | done | done ].
  - rewrite create_ticket_eq. destruct (violated _); [done|]. simpl.
    unfold stamped_by; simpl. apply Forall_app. split; [done|].
    by repeat constructor.
  - destruct (decide (updates = [])) as [->|Hne]; [done|].
    rewrite update_ticket_eq by done. simpl.
    destruct (decide (_ ∈ _)); [|done].
    destruct (violated _) eqn:Hsets; [done|].
    unfold stamped_by; simpl. apply Forall_fmap, Forall_forall.
    intros r Hr. simpl.
    apply (proj1 (Forall_forall _ _) Hdb) in Hr as [Hcu Hut].
    destruct (decide (Row.id r = ticket_id)).
    2:{ split; [done|]. by etrans. }
    pose proof (assign_column _ r col_updated_at Hsets) as Hupd.
    pose proof (assign_column _ r col_created_at Hsets) as Hcre.
    rewrite assigned_snoc in Hupd, Hcre.
    rewrite decide_True in Hupd by done. rewrite decide_False in Hcre by done.
    simpl in Hc. apply assigned_None in Hc. rewrite Hc in Hcre.
    simpl in Hupd, Hcre. injection Hupd as Hupd. injection Hcre as Hcre.
    simpl. rewrite Hupd, Hcre. split; [|done]. by do 2 etrans.
  - unfold stamped_by. by rewrite add_comment_tickets.
Qed.

Lemma run_stamped (history : list (string * call)) (t : string) (db : Database) :
  StronglySorted String.le (t :: history.*1) →
  Forall keeps_created_at history.*2 →
  stamped_by t db →
  ∃ t', stamped_by t' (run history db).
Proof.
  revert t db. induction history as [|[now c] history IH]; intros t db Hs Hk Hdb.
  { by exists t. }
  simpl in *. apply StronglySorted_inv in Hs as [Hs Ht].
  apply Forall_cons in Ht as [Ht _]. apply Forall_cons in Hk as [Hc Hk].
  apply (IH now); [done..|]. by apply (perform_stamped t).
Qed.

(** C5, as the code has it. After every history of calls to
    [create_ticket], [update_ticket], [add_comment] and the reading methods
    that starts on the fresh database, made under a clock that never goes
    back, and in which no update assigns [created_at], every ticket has
    [created_at ≤ updated_at]; and a [create_ticket] that returns has appended
    one ticket whose [created_at] and [updated_at] are both the current
    time. *)
Theorem created_before_updated (history : list (string * call)) :
  monotone history →
  Forall keeps_created_at history.*2 →
  timestamps_ordered (run history init_db)
  ∧ ∀ now t ticket_id db',
      create_ticket now t (run history init_db) = (db', Return ticket_id) →
      ∃ r, tickets db' = tickets (run history init_db) ++ [r]
           ∧ Row.id r = ticket_id
           ∧ Row.created_at r = now ∧ Row.updated_at r = now.
Proof.
  intros Hmono Hkeep. split.
  - destruct (run_stamped history (default "" (head history.*1)) init_db)
      as [t' Ht']; [|done|by constructor|].
    + apply Sorted_StronglySorted; [apply _|]. unfold monotone in Hmono.
      destruct (history.*1) as [|t ts]; simpl; [repeat constructor|].
      constructor; [done|]. by constructor.
    + eapply Forall_impl; [exact Ht'|]. by intros r [? _].
  - intros now t ticket_id db'. rewrite create_ticket_eq.
    destruct (violated _); [done|]. simpl. intros [= <- <-]. by eexists.
Qed.

Lemma created_before_updated_witness :
  timestamps_ordered (run history_ok init_db)
  ∧ ∀ now t ticket_id db',
      create_ticket now t (run history_ok init_db) = (db', Return ticket_id) →
      ∃ r, tickets db' = tickets (run history_ok init_db) ++ [r]
           ∧ Row.id r = ticket_id
           ∧ Row.created_at r = now ∧ Row.updated_at r = now.
Proof.
  apply (created_before_updated history_ok).
  - unfold monotone. simpl. repeat constructor.
  - simpl. repeat constructor. simpl.
    apply (bool_decide_unpack _). vm_compute. exact I.
Defined.

(** C5, as stated, fails: an update whose patch names [created_at] leaves
    the ticket with a [created_at] after its [updated_at], under a clock
    that never goes back. *)
Lemma created_after_updated :
  monotone history_backdated
  ∧ Row.created_at <$> tickets (run history_backdated init_db) = ["9"]
  ∧ Row.updated_at <$> tickets (run history_backdated init_db) = ["2"]
  ∧ String.leb "9" "2" = false
  ∧ ¬ timestamps_ordered (run history_backdated init_db).
Proof.
  split; [unfold monotone; simpl; repeat constructor|].
  repeat split; try reflexivity.
  intros H. apply Forall_cons in H as [H _]. exact H.
Qed.

(** ** Searching *)













(** What [occurs_in] decides: some stretch of [s] equals the query once the
    case of ASCII letters is folded. *)
Lemma starts_with_spec (query s : list ascii) :
  starts_with query s
  ↔ ∃ mid post, s = mid ++ post ∧ sqlite3Tolower <$> mid = sqlite3Tolower <$> query.
Proof.
  revert s. induction query as [|c query IH]; intros s; simpl.
  { split; [|done]. by exists [], s. }
  destruct s as [|d s]; simpl.
  { split; [done|]. by intros ([|??] & post & ? & ?). }
  unfold same_letter. rewrite andb_True, bool_decide_spec, IH. split.
  - intros (Hcd & mid & post & -> & Hmid). exists (d :: mid), post.
    split; [done|]. csimpl. by rewrite Hcd, Hmid.
  - intros ([|d' mid] & post & Hs & Hmid); [done|]. simplify_eq/=. eauto.
Qed.

Lemma occurs_in_spec (query s : list ascii) :
  occurs_in query s
  ↔ ∃ pre mid post,
      s = pre ++ mid ++ post ∧ sqlite3Tolower <$> mid = sqlite3Tolower <$> query.
Proof.
  induction s as [|d s IH]; simpl; rewrite orb_True, starts_with_spec.
  - split.
    + intros [(mid & post & ? & ?)|[]]. by exists [], mid, post.
    + intros (pre & mid & post & Hs & ?). left.
      symmetry in Hs. apply app_eq_nil in Hs as [-> Hs]. eauto.
  - rewrite IH. split.
    + intros [(mid & post & ? & ?)|(pre & mid & post & -> & ?)].
      * by exists [], mid, post.
      * by exists (d :: pre), mid, post.
    + intros ([|d' pre] & mid & post & Hs & ?).
      * left. by exists mid, post.
      * right. simplify_eq/=. by exists pre, mid, post.
Qed.



#[global] Instance search_before_trans : Transitive search_before.
Proof. intros a b c Hab Hbc. unfold search_before in *. by etrans. Qed.






(** ** Export *)

Section csv_round_trip.
Import Csv Reader.










End csv_round_trip.







#[global] Instance id_le_trans : Transitive (λ a b : Row.t, Row.id a ≤ Row.id b).
Proof. intros a b c. lia. Qed.




(** * Further properties *)

(** ** Creating and fetching tickets *)


Lemma new_rowid_fresh (ids : list Z) : Forall (λ i, i < new_rowid ids) ids.
Proof.
  unfold new_rowid. induction ids as [|i ids IH]; simpl; constructor; [lia|].
  eapply Forall_impl; [exact IH|]. intros j. simpl. lia.
Qed.



Lemma insert_accepted (status priority : string) :
  status ∈ STATUSES → priority ∈ PRIORITIES →
  violated [(col_status, Some status); (col_priority, Some priority)] = None.
Proof.
  intros Hs Hp. unfold violated. simpl.
  by rewrite !bool_decide_false by (by intros ?).
Qed.

Lemma insert_rejected (status priority : string) :
  violated [(col_status, Some status); (col_priority, Some priority)]
  = if decide (status ∈ STATUSES) then
      if decide (priority ∈ PRIORITIES) then None else Some (CHECK col_priority)
    else Some (CHECK col_status).
Proof.
  unfold violated. simpl.
  destruct (decide (status ∈ STATUSES)).
  - rewrite (bool_decide_false (status ∉ STATUSES)) by (by intros ?).
    destruct (decide (priority ∈ PRIORITIES)).
    + by rewrite (bool_decide_false (priority ∉ PRIORITIES)) by (by intros ?).
    + by rewrite bool_decide_true.
  - by rewrite bool_decide_true.
Qed.

Lemma get_ticket_eq (ticket_id : Z) (db : Database) :
  get_ticket ticket_id db
  = (db, Return (ticket_of_row <$> head (filter (λ r, Row.id r = ticket_id) (tickets db)))).
Proof.
  unfold get_ticket, mbind, M_bind, select.
  by destruct (head _).
Qed.

Lemma filter_id_absent (ticket_id : Z) (rows : list Row.t) :
  (ticket_id ∉ Row.id <$> rows) → filter (λ r, Row.id r = ticket_id) rows = [].
Proof.
  intros Habsent. induction rows as [|r rows IH]; [done|].
  apply not_elem_of_cons in Habsent as [? ?].
  rewrite filter_cons_False by done. by apply IH.
Qed.

(** X1. A ticket whose status and priority are in the lists of the schema
    is created under an id that no stored ticket has; fetching that id
    returns the ticket as given, with both timestamps at the current time,
    and fetching any other id returns what it returned before. *)
Theorem create_then_get (now : string) (t : Ticket.t) (db : Database) :
  Ticket.status t ∈ STATUSES →
  Ticket.priority t ∈ PRIORITIES →
  ∃ new_id db',
    create_ticket now t db = (db', Return new_id)
    ∧ (new_id ∉ Row.id <$> tickets db)
    ∧ get_ticket new_id db'
      = (db', Return (Some {|
           Ticket.id := Some new_id;
           Ticket.title := Ticket.title t;
           Ticket.description := Ticket.description t;
           Ticket.status := Ticket.status t;
           Ticket.priority := Ticket.priority t;
           Ticket.requester := Ticket.requester t;
           Ticket.assignee := Ticket.assignee t;
           Ticket.tags := Ticket.tags t;
           Ticket.created_at := Some now;
           Ticket.updated_at := Some now |}))
    ∧ ∀ other, other ≠ new_id → (get_ticket other db').2 = (get_ticket other db).2.
Proof.
  intros Hs Hp. rewrite create_ticket_eq, insert_accepted by done. simpl.
  set (new_id := new_rowid (Row.id <$> tickets db)).
  assert (new_id ∉ Row.id <$> tickets db) as Hfresh.
  { intros Hin. pose proof (new_rowid_fresh (Row.id <$> tickets db)) as Hlt.
    apply (proj1 (Forall_forall _ _) Hlt) in Hin. unfold new_id in Hin. lia. }
  eexists _, _. split; [reflexivity|]. split; [done|]. split.
  - rewrite get_ticket_eq. simpl.
    rewrite filter_app, filter_id_absent by done. simpl.
    by rewrite filter_cons_True.
  - intros other Hother. rewrite !get_ticket_eq. simpl.
    rewrite filter_app. simpl. rewrite filter_cons_False by (simpl; congruence).
    by rewrite filter_nil, app_nil_r.
Qed.

Lemma create_then_get_witness :
  ∃ new_id db',
    create_ticket "4" (ticket "D" "in_progress" "high" (Some "db")) fixture
    = (db', Return new_id)
    ∧ (new_id ∉ Row.id <$> tickets fixture)
    ∧ get_ticket new_id db'
      = (db', Return (Some {|
           Ticket.id := Some new_id;
           Ticket.title := "D";
           Ticket.description := "";
           Ticket.status := "in_progress";
           Ticket.priority := "high";
           Ticket.requester := None;
           Ticket.assignee := None;
           Ticket.tags := Some "db";
           Ticket.created_at := Some "4";
           Ticket.updated_at := Some "4" |}))
    ∧ ∀ other, other ≠ new_id → (get_ticket other db').2 = (get_ticket other fixture).2.
Proof.
  apply (create_then_get "4" (ticket "D" "in_progress" "high" (Some "db")) fixture);
    apply (bool_decide_unpack _); vm_compute; exact I.
Defined.

(** X2. A ticket whose status or priority is outside the lists of the
    schema is not created: [create_ticket] raises the [IntegrityError] of the
    CHECK constraint, on status when both are outside, and the database is
    left as it was. *)
Theorem create_ticket_rejected (now : string) (t : Ticket.t) (db : Database) :
  Ticket.status t ∉ STATUSES ∨ Ticket.priority t ∉ PRIORITIES →
  create_ticket now t db
  = (db, Raise (IntegrityError
       (CHECK (if decide (Ticket.status t ∈ STATUSES) then col_priority
               else col_status)))).
Proof.
  intros H. rewrite create_ticket_eq, insert_rejected.
  destruct (decide (Ticket.status t ∈ STATUSES)); [|done].
  destruct (decide (Ticket.priority t ∈ PRIORITIES)); [|done]. by destruct H.
Qed.

Lemma create_ticket_rejected_witness :
  ("Open" ∉ STATUSES ∨ "low" ∉ PRIORITIES)
  ∧ create_ticket "4" (ticket "D" "Open" "low" None) fixture
    = (fixture, Raise (IntegrityError (CHECK col_status))).
Proof.
  assert ("Open" ∉ STATUSES ∨ "low" ∉ PRIORITIES) as H.
  { left. apply (bool_decide_unpack _). vm_compute. exact I. }
  split; [exact H|].
  apply (create_ticket_rejected "4" (ticket "D" "Open" "low" None) fixture H).
Defined.


(** ** What the methods write *)

Lemma update_ticket_written (now : string) (ticket_id : Z)
    (updates : list (column * text)) (db : Database) :
  written now db (update_ticket now ticket_id updates db).1.
Proof.
  destruct (decide (updates = [])) as [->|Hne]; [constructor|].
  rewrite update_ticket_eq by done. simpl.
  destruct (decide (_ ∈ _)); [|constructor].
  destruct (violated _) eqn:Hsets; [constructor|]. by constructor.
Qed.

Lemma create_ticket_written (now : string) (t : Ticket.t) (db : Database) :
  written now db (create_ticket now t db).1.
Proof.
  rewrite create_ticket_eq, insert_rejected.
  destruct (decide (_ ∈ STATUSES)); [|constructor].
  destruct (decide (_ ∈ PRIORITIES)); [|constructor]. by constructor.
Qed.

Lemma add_comment_written (now : string) (ticket_id : Z) (author : text)
    (body : string) (db : Database) :
  written now db (add_comment now ticket_id author body db).1.
Proof.
  unfold add_comment, mbind, M_bind, sql_insert_comment.
  destruct (decide _); simpl; by constructor.
Qed.

Lemma get_ticket_reads (ticket_id : Z) (db : Database) :
  (get_ticket ticket_id db).1 = db.
Proof. by rewrite get_ticket_eq. Qed.

Lemma perform_written (now : string) (c : call) (db : Database) :
  written now db (perform now c db).
Proof.
  destruct c; simpl;
    first [ apply create_ticket_written | apply update_ticket_written
          | apply add_comment_written | rewrite get_ticket_reads; constructor
          | constructor ].
Qed.

Lemma run_written (P : Database → Prop) :
  (∀ now db db', written now db db' → P db → P db') →
  ∀ history db, P db → P (run history db).
Proof.
  intros Hstep history. induction history as [|[now c] history IH]; intros db Hdb.
  { done. }
  simpl. apply IH. by eapply Hstep; [apply perform_written|].
Qed.

(** ** Keys and constraints along a history *)



Lemma assign_enums (sets : list (column * text)) (r : Row.t) :
  violated sets = None →
  Row.status r ∈ STATUSES ∧ Row.priority r ∈ PRIORITIES →
  Row.status (assign sets r) ∈ STATUSES ∧ Row.priority (assign sets r) ∈ PRIORITIES.
Proof.
  intros [_ Hck]%violated_None [Hs Hp]. simpl. unfold new_string. split.
  - destruct (assigned col_status sets) as [[s|]|] eqn:Ha; try done.
    apply (Hck col_status STATUSES s); [|done]. unfold check_constraints. by left.
  - destruct (assigned col_priority sets) as [[s|]|] eqn:Ha; try done.
    apply (Hck col_priority PRIORITIES s); [|done].
    unfold check_constraints. right. by left.
Qed.

(** X5. After every history of calls on the fresh database every stored
    ticket has a status among open, in_progress, closed and a priority among
    low, medium, high, urgent. *)
Theorem enums_kept (history : list (string * call)) :
  Forall (λ r, Row.status r ∈ STATUSES ∧ Row.priority r ∈ PRIORITIES)
    (tickets (run history init_db)).
Proof.
  apply (run_written (λ db,
    Forall (λ r, Row.status r ∈ STATUSES ∧ Row.priority r ∈ PRIORITIES)
      (tickets db))); [|constructor].
  intros now db db' Hw Hdb. destruct Hw; simpl; [done| | |done].
  - apply Forall_app. split; [done|]. constructor; [done|constructor].
  - apply Forall_fmap. eapply Forall_impl; [exact Hdb|]. intros r Hr. simpl.
    destruct (decide _); [|done]. by apply assign_enums.
Qed.

(** X6. After every history of calls on the fresh database every stored
    comment belongs to a stored ticket. *)
Theorem comments_reference_tickets (history : list (string * call)) :
  Forall (λ c, Comment.ticket_id c ∈ Row.id <$> tickets (run history init_db))
    (comments (run history init_db)).
Proof.
  apply (run_written (λ db,
    Forall (λ c, Comment.ticket_id c ∈ Row.id <$> tickets db) (comments db)));
    [|constructor].
  intros now db db' Hw Hdb. destruct Hw; simpl; [done|..].
  - eapply Forall_impl; [exact Hdb|]. intros c Hc. simpl.
    rewrite fmap_app. apply elem_of_app. by left.
  - eapply Forall_impl; [exact Hdb|]. intros c Hc. simpl.
    rewrite <- list_fmap_compose.
    replace ((Row.id ∘ _) <$> tickets db) with (Row.id <$> tickets db); [done|].
    apply list_fmap_ext. intros _ r _. simpl. by destruct (decide _).
  - apply Forall_app. split; [done|]. constructor; [done|constructor].
Qed.

(** ** Comments of a ticket *)

Lemma place_snoc {A} (cmp : A → A → comparison) (y x : A) (l : list A) :
  cmp y x ≠ Gt → place cmp y (l ++ [x]) = place cmp y l ++ [x].
Proof.
  intros Hyx. induction l as [|z l IH]; simpl.
  - by destruct (cmp y x).
  - destruct (cmp y z); try done. by rewrite IH.
Qed.

Lemma order_by_snoc {A} (cmp : A → A → comparison) (x : A) (l : list A) :
  Forall (λ y, cmp y x ≠ Gt) l → order_by cmp (l ++ [x]) = order_by cmp l ++ [x].
Proof.
  induction 1 as [|y l Hy _ IH]; simpl; [done|]. by rewrite IH, place_snoc.
Qed.

Lemma get_comments_eq (ticket_id : Z) (db : Database) :
  get_comments ticket_id db
  = (db, Return (comment_view
       <$> order_by (λ a b, Comment.id a ?= Comment.id b)
             (filter (λ c, Comment.ticket_id c = ticket_id) (comments db)))).
Proof. reflexivity. Qed.

#[global] Instance comment_view_le_trans :
  Transitive (λ a b : CommentView.t, CommentView.id a ≤ CommentView.id b).
Proof. intros a b c. lia. Qed.


(** X8. A comment added to a stored ticket shows up last among the comments
    of that ticket, with the author, the body and the time given, after the
    comments that were there; the comments of every other ticket read as
    before. *)
Theorem add_comment_then_get_comments (now : string) (ticket_id : Z)
    (author : text) (body : string) (db : Database) :
  ticket_id ∈ Row.id <$> tickets db →
  ∃ comment_id db' before,
    add_comment now ticket_id author body db = (db', Return comment_id)
    ∧ get_comments ticket_id db = (db, Return before)
    ∧ get_comments ticket_id db'
      = (db', Return (before ++ [CommentView.mk comment_id author body now]))
    ∧ ∀ other, other ≠ ticket_id →
        (get_comments other db').2 = (get_comments other db).2.
Proof.
  intros Hin.
  set (comment_id := new_rowid (Comment.id <$> comments db)).
  assert (add_comment now ticket_id author body db
          = ({| tickets := tickets db;
                comments :=
                  comments db ++ [Comment.mk comment_id ticket_id author body now] |},
             Return comment_id)) as Hadd.
  { unfold add_comment, mbind, M_bind, sql_insert_comment.
    by rewrite decide_True by done. }
  eexists comment_id, _, _. split; [exact Hadd|].
  split; [apply get_comments_eq|]. split.
  - rewrite get_comments_eq. cbn [comments].
    rewrite filter_app, filter_cons_True, filter_nil by done.
    rewrite order_by_snoc, fmap_app; [done|].
    apply Forall_forall. intros c [_ Hc]%list_elem_of_filter. simpl.
    pose proof (new_rowid_fresh (Comment.id <$> comments db)) as Hlt.
    assert (Comment.id c < comment_id) as Hlt'.
    { apply (proj1 (Forall_forall _ _) Hlt), list_elem_of_fmap. eauto. }
    intros Hgt%Z.compare_gt_iff. lia.
  - intros other Hother. rewrite !get_comments_eq. cbn [comments snd].
    rewrite filter_app, filter_cons_False by (simpl; congruence).
    by rewrite filter_nil, app_nil_r.
Qed.

Lemma add_comment_then_get_comments_witness :
  ∃ comment_id db' before,
    add_comment "8" 2 (Some "ann") "hi" fixture = (db', Return comment_id)
    ∧ get_comments 2 fixture = (fixture, Return before)
    ∧ get_comments 2 db'
      = (db', Return (before ++ [CommentView.mk comment_id (Some "ann") "hi" "8"]))
    ∧ ∀ other, other ≠ 2 →
        (get_comments other db').2 = (get_comments other fixture).2.
Proof.
  apply (add_comment_then_get_comments "8" 2 (Some "ann") "hi" fixture).
  apply (bool_decide_unpack _). vm_compute. exact I.
Defined.

(** ** More on updating *)

Lemma assign_unnamed (sets : list (column * text)) (r : Row.t) (c : column) :
  assigned c sets = None → column_value c (assign sets r) = column_value c r.
Proof.
  intros Hc. destruct c; simpl; unfold new_string, new_text; by rewrite Hc.
Qed.

Lemma update_ticket_cases (now : string) (ticket_id : Z)
    (updates : list (column * text)) (db : Database) :
  (update_ticket now ticket_id updates db = (db, Return false)
   ∧ (updates = [] ∨ ticket_id ∉ Row.id <$> tickets db))
  ∨ (∃ k, update_ticket now ticket_id updates db = (db, Raise (IntegrityError k))
          ∧ ticket_id ∈ Row.id <$> tickets db
          ∧ violated (updates ++ [(col_updated_at, Some now)]) = Some k)
  ∨ (update_ticket now ticket_id updates db
     = ({| tickets :=
             (λ r, if decide (Row.id r = ticket_id)
                   then assign (updates ++ [(col_updated_at, Some now)]) r else r)
               <$> tickets db;
           comments := comments db |}, Return true)
     ∧ updates ≠ []
     ∧ ticket_id ∈ Row.id <$> tickets db
     ∧ violated (updates ++ [(col_updated_at, Some now)]) = None).
Proof.
  destruct (decide (updates = [])) as [->|Hne]; [left; by split; [|left]|].
  rewrite update_ticket_eq by done. simpl.
  destruct (decide (_ ∈ _)); [|left; by split; [|right]].
  destruct (violated _) as [k|] eqn:Hsets; right; [left; by exists k|by right].
Qed.



Lemma violated_fits (sets : list (column * text)) :
  violated sets = None ↔ ∀ c v, assigned c sets = Some v → fits c v.
Proof.
  split.
  - intros [Hnn Hck]%violated_None c [s|] Hc; simpl.
    + destruct c; try done.
      * apply (Hck col_status STATUSES s); [|done]. unfold check_constraints. by left.
      * apply (Hck col_priority PRIORITIES s); [|done].
        unfold check_constraints. right. by left.
    + intros Hin. by apply (Hnn c).
  - intros Hfits. unfold violated.
    destruct (List.find _ not_null_columns) as [c|] eqn:Hfind.
    { apply find_some in Hfind as [Hc%list_elem_of_In Hnull].
      rewrite bool_decide_eq_true in Hnull. by destruct (Hfits c None Hnull). }
    destruct (List.find _ check_constraints) as [[c allowed]|] eqn:Hfind'; [|done].
    apply find_some in Hfind' as [Hc%list_elem_of_In Hbad]. simpl in Hbad.
    destruct (assigned c sets) as [[s|]|] eqn:Hs; try done.
    rewrite bool_decide_eq_true in Hbad. destruct Hbad.
    pose proof (Hfits c (Some s) Hs) as Hfit. unfold check_constraints in Hc.
    apply elem_of_cons in Hc as [[= -> ->]|Hc]; [done|].
    apply elem_of_cons in Hc as [[= -> ->]|Hc]; [done|]. by apply elem_of_nil in Hc.
Qed.

(** X11. On a stored id, a patch that gives some column other than
    [updated_at] a value that does not fit it (NULL for a NOT NULL column, a
    status or a priority outside the list of the schema) is refused as a whole:
    [update_ticket] raises an [IntegrityError] and the database is left as it
    was. *)
Theorem update_ticket_misfit (now : string) (ticket_id : Z)
    (updates : list (column * text)) (c : column) (v : text) (db : Database) :
  ticket_id ∈ Row.id <$> tickets db →
  c ≠ col_updated_at →
  assigned c updates = Some v →
  ¬ fits c v →
  ∃ k, update_ticket now ticket_id updates db = (db, Raise (IntegrityError k)).
Proof.
  intros Hin Hc Hv Hfit.
  destruct (update_ticket_cases now ticket_id updates db)
    as [[_ [->|?]]|[(k & ? & _)|(_ & _ & _ & Hok)]]; try done; [by exists k|].
  destruct Hfit. apply (proj1 (violated_fits _) Hok).
  rewrite assigned_snoc. by rewrite decide_False.
Qed.

Lemma update_ticket_misfit_witness :
  ∃ k,
    update_ticket "5" 1 [(col_title, None); (col_status, Some "closed")] fixture
    = (fixture, Raise (IntegrityError k)).
Proof.
  apply (update_ticket_misfit "5" 1 [(col_title, None); (col_status, Some "closed")]
           col_title None fixture).
  - apply (bool_decide_unpack _). vm_compute. exact I.
  - discriminate.
  - reflexivity.
  - intros H. apply H. apply (bool_decide_unpack _). vm_compute. exact I.
Defined.

Lemma filter_id_fmap (f : Row.t → Row.t) (ticket_id : Z) (rows : list Row.t) :
  (∀ r, Row.id (f r) = Row.id r) →
  filter (λ r, Row.id r = ticket_id) (f <$> rows)
  = f <$> filter (λ r, Row.id r = ticket_id) rows.
Proof.
  intros Hf. induction rows as [|r rows IH]; [done|]. csimpl.
  destruct (decide (Row.id r = ticket_id)).
  - rewrite !filter_cons_True by (by rewrite ?Hf). csimpl. by rewrite IH.
  - rewrite !filter_cons_False by (by rewrite ?Hf). done.
Qed.

(** X12. Any status of the schema can be set on a stored ticket whatever its
    current status: the update returns true, and the ticket then reads with
    the new status, [updated_at] at the current time and every other field
    as before. *)
Theorem status_any_to_any (now : string) (ticket_id : Z) (status : string)
    (db : Database) :
  ticket_id ∈ Row.id <$> tickets db →
  status ∈ STATUSES →
  ∃ db' before after,
    update_ticket now ticket_id [(col_status, Some status)] db = (db', Return true)
    ∧ get_ticket ticket_id db = (db, Return (Some before))
    ∧ get_ticket ticket_id db' = (db', Return (Some after))
    ∧ after = {|
        Ticket.id := Ticket.id before;
        Ticket.title := Ticket.title before;
        Ticket.description := Ticket.description before;
        Ticket.status := status;
        Ticket.priority := Ticket.priority before;
        Ticket.requester := Ticket.requester before;
        Ticket.assignee := Ticket.assignee before;
        Ticket.tags := Ticket.tags before;
        Ticket.created_at := Ticket.created_at before;
        Ticket.updated_at := Some now |}.
Proof.
  intros Hin Hs.
  set (sets := [(col_status, Some status); (col_updated_at, Some now)]).
  set (db' := {| tickets :=
                   (λ r, if decide (Row.id r = ticket_id) then assign sets r else r)
                     <$> tickets db;
                 comments := comments db |}).
  assert (update_ticket now ticket_id [(col_status, Some status)] db
          = (db', Return true)) as Hupd.
  { rewrite update_ticket_eq by done. cbv zeta. rewrite decide_True by done.
    change ([(col_status, Some status)] ++ [(col_updated_at, Some now)]) with sets.
    assert (violated sets = None) as ->; [|done].
    unfold violated. simpl. by rewrite bool_decide_false by (by intros ?). }
  destruct (filter (λ r, Row.id r = ticket_id) (tickets db)) as [|row hit] eqn:Hhit.
  { apply list_elem_of_fmap in Hin as (r & -> & Hr).
    assert (r ∈ filter (λ r0, Row.id r0 = Row.id r) (tickets db)) as Hin
      by by apply list_elem_of_filter.
    rewrite Hhit in Hin. by apply elem_of_nil in Hin. }
  assert (Row.id row = ticket_id) as Hid.
  { assert (row ∈ filter (λ r, Row.id r = ticket_id) (tickets db)) as Hin'
      by (rewrite Hhit; left).
    by apply list_elem_of_filter in Hin' as [? _]. }
  exists db', (ticket_of_row row), (ticket_of_row (assign sets row)).
  split; [exact Hupd|]. split; [|split].
  - by rewrite get_ticket_eq, Hhit.
  - rewrite get_ticket_eq. unfold db'. cbn [tickets].
    rewrite filter_id_fmap by (intros r; by destruct (decide _)).
    rewrite Hhit. simpl. by rewrite decide_True.
  - reflexivity.
Qed.

Lemma status_any_to_any_witness :
  ∃ db' before after,
    update_ticket "5" 3 [(col_status, Some "open")] fixture = (db', Return true)
    ∧ get_ticket 3 fixture = (fixture, Return (Some before))
    ∧ get_ticket 3 db' = (db', Return (Some after))
    ∧ after = {|
        Ticket.id := Ticket.id before;
        Ticket.title := Ticket.title before;
        Ticket.description := Ticket.description before;
        Ticket.status := "open";
        Ticket.priority := Ticket.priority before;
        Ticket.requester := Ticket.requester before;
        Ticket.assignee := Ticket.assignee before;
        Ticket.tags := Ticket.tags before;
        Ticket.created_at := Ticket.created_at before;
        Ticket.updated_at := Some "5" |}.
Proof.
  apply (status_any_to_any "5" 3 "open" fixture);
    apply (bool_decide_unpack _); vm_compute; exact I.
Defined.

(** ** Filters narrow a listing *)

Section order_by_filter.
Context {A : Type} (cmp : A → A → comparison) (P : A → Prop).
Context `{!∀ x, Decision (P x)}.
Hypothesis cmp_Gt : ∀ x y, cmp x y = Gt → cmp y x ≠ Gt.
Hypothesis cmp_trans : Transitive (λ a b, cmp a b ≠ Gt).





End order_by_filter.




(** ** The forms *)

Lemma rstrip_idem (s : string) : Py.rstrip (Py.rstrip s) = Py.rstrip s.
Proof.
  induction s as [|c s IH]; [done|]. simpl.
  destruct (Py.rstrip s) as [|d kept] eqn:Hs.
  - destruct (Py.isspace c) eqn:Hc; [done|]. simpl. by rewrite Hc.
  - change (Py.rstrip (String c (String d kept)))
      with (match Py.rstrip (String d kept) with
            | EmptyString => if Py.isspace c then EmptyString else String c EmptyString
            | k => String c k
            end).
    by rewrite IH.
Qed.

Lemma lstrip_head (s : string) :
  match Py.lstrip s with
  | EmptyString => True
  | String c _ => Py.isspace c = false
  end.
Proof.
  induction s as [|c s IH]; [done|]. simpl.
  by destruct (Py.isspace c) eqn:Hc.
Qed.

Lemma lstrip_rstrip (s : string) :
  match s with EmptyString => True | String c _ => Py.isspace c = false end →
  Py.lstrip (Py.rstrip s) = Py.rstrip s.
Proof.
  destruct s as [|c s]; [done|]. intros Hc. cbn [Py.rstrip].
  destruct (Py.rstrip s); rewrite ?Hc; cbn [Py.lstrip]; by rewrite Hc.
Qed.

(** Stripping twice is stripping once. *)
Lemma strip_idem (s : string) : Py.strip (Py.strip s) = Py.strip s.
Proof.
  unfold Py.strip. rewrite lstrip_rstrip by apply lstrip_head.
  apply rstrip_idem.
Qed.

Lemma or_none_not_empty (s : string) : Py.or_none s ≠ Some "".
Proof. unfold Py.or_none. destruct (decide (s = "")); congruence. Qed.

(** X14. The create form, with status and priority taken from its select
    boxes, never raises.  With a blank title it warns and writes nothing.
    Otherwise it creates one ticket, which then reads with the title
    stripped and not empty, the description stripped, the status and priority
    chosen, and requester, assignee and tags stripped, where an empty one is
    stored as NULL and never as the empty string. *)
Theorem create_ticket_form_stores (now : string)
    (title description requester assignee tags priority status : string)
    (db : Database) :
  status ∈ STATUSES →
  priority ∈ PRIORITIES →
  (Py.strip title = ""
   ∧ create_ticket_form now title description requester assignee tags priority
       status db
     = (db, Return (warning "Title is required.")))
  ∨ (∃ new_id db' t,
       create_ticket_form now title description requester assignee tags priority
         status db
       = (db', Return (success ("Created ticket #" +:+ Py.str new_id)))
       ∧ length (tickets db') = S (length (tickets db))
       ∧ get_ticket new_id db' = (db', Return (Some t))
       ∧ Ticket.title t = Py.strip title ∧ Ticket.title t ≠ ""
       ∧ Py.strip (Ticket.title t) = Ticket.title t
       ∧ Ticket.description t = Py.strip description
       ∧ Ticket.status t = status ∧ Ticket.priority t = priority
       ∧ Ticket.requester t = Py.or_none (Py.strip requester)
       ∧ Ticket.assignee t = Py.or_none (Py.strip assignee)
       ∧ Ticket.tags t = Py.or_none (Py.strip tags)
       ∧ Ticket.requester t ≠ Some "" ∧ Ticket.assignee t ≠ Some ""
       ∧ Ticket.tags t ≠ Some "").
Proof.
  intros Hs Hp. unfold create_ticket_form.
  destruct (decide (Py.strip title = "")) as [Hblank|Hblank]; [by left|right].
  unfold mbind, M_bind. rewrite create_ticket_eq. cbn [Ticket.status Ticket.priority].
  rewrite insert_accepted by done. cbv zeta.
  set (new_id := new_rowid (Row.id <$> tickets db)).
  assert (new_id ∉ Row.id <$> tickets db) as Hfresh.
  { intros Hin. pose proof (new_rowid_fresh (Row.id <$> tickets db)) as Hlt.
    apply (proj1 (Forall_forall _ _) Hlt) in Hin. unfold new_id in Hin. lia. }
  eexists new_id, _, _. split; [reflexivity|]. split.
  { cbn [tickets]. rewrite length_app. simpl. lia. }
  split.
  { rewrite get_ticket_eq. cbn [tickets].
    rewrite filter_app, filter_id_absent by done. simpl.
    rewrite filter_cons_True by done. reflexivity. }
  simpl. repeat split; try done; try apply or_none_not_empty.
  apply strip_idem.
Qed.

Lemma create_ticket_form_stores_witness :
  (Py.strip "  disk full " = ""
   ∧ create_ticket_form "4" "  disk full " "" "ann" "" "" "high" "open" fixture
     = (fixture, Return (warning "Title is required.")))
  ∨ (∃ new_id db' t,
       create_ticket_form "4" "  disk full " "" "ann" "" "" "high" "open" fixture
       = (db', Return (success ("Created ticket #" +:+ Py.str new_id)))
       ∧ length (tickets db') = S (length (tickets fixture))
       ∧ get_ticket new_id db' = (db', Return (Some t))
       ∧ Ticket.title t = Py.strip "  disk full " ∧ Ticket.title t ≠ ""
       ∧ Py.strip (Ticket.title t) = Ticket.title t
       ∧ Ticket.description t = Py.strip ""
       ∧ Ticket.status t = "open" ∧ Ticket.priority t = "high"
       ∧ Ticket.requester t = Py.or_none (Py.strip "ann")
       ∧ Ticket.assignee t = Py.or_none (Py.strip "")
       ∧ Ticket.tags t = Py.or_none (Py.strip "")
       ∧ Ticket.requester t ≠ Some "" ∧ Ticket.assignee t ≠ Some ""
       ∧ Ticket.tags t ≠ Some "").
Proof.
  apply (create_ticket_form_stores "4" "  disk full " "" "ann" "" "" "high" "open"
           fixture);
    apply (bool_decide_unpack _); vm_compute; exact I.
Defined.


Lemma get_ticket_Some (ticket_id : Z) (db db' : Database) (t : Ticket.t) :
  get_ticket ticket_id db = (db', Return (Some t)) →
  db' = db
  ∧ (ticket_id ∈ Row.id <$> tickets db)
  ∧ ∃ row hit,
      filter (λ r, Row.id r = ticket_id) (tickets db) = row :: hit
      ∧ Row.id row = ticket_id ∧ t = ticket_of_row row.
Proof.
  rewrite get_ticket_eq. intros [= <- Ht].
  destruct (filter _ (tickets db)) as [|row hit] eqn:Hhit; [done|].
  injection Ht as <-.
  assert (row ∈ filter (λ r, Row.id r = ticket_id) (tickets db)) as Hin
    by (rewrite Hhit; left).
  apply list_elem_of_filter in Hin as [Hid Hin].
  split; [done|]. split; [apply list_elem_of_fmap; eauto|]. eauto.
Qed.

Lemma assigned_Some_elem (c : column) (v : text) (sets : list (column * text)) :
  assigned c sets = Some v → (c, v) ∈ sets.
Proof.
  induction sets as [|[c' v'] sets IH]; simpl; [done|].
  destruct (assigned c sets); [intros [= <-]; right; by apply IH|].
  destruct (decide (c' = c)) as [->|]; [|done]. intros [= <-]. by left.
Qed.

Lemma edit_updates_elem (ticket : Ticket.t)
    (new_title new_desc new_priority new_tags new_assignee new_status : string)
    (c : column) (v : text) :
  (c, v) ∈ edit_updates ticket new_title new_desc new_priority new_tags new_assignee
             new_status →
  (c = col_title ∧ v = Some (Py.strip new_title) ∧ new_title ≠ Ticket.title ticket)
  ∨ (c = col_description ∧ v = Some (Py.strip new_desc))
  ∨ (c = col_priority ∧ v = Some new_priority)
  ∨ (c = col_tags ∧ v = Py.or_none (Py.strip new_tags))
  ∨ (c = col_assignee ∧ v = Py.or_none (Py.strip new_assignee))
  ∨ (c = col_status ∧ v = Some new_status).
Proof.
  unfold edit_updates. rewrite !elem_of_app.
  intros [H|[H|[H|[H|[H|H]]]]];
    match type of H with
    | _ ∈ (if ?d then _ else _) => destruct d; [|by apply elem_of_nil in H]
    end;
    apply list_elem_of_singleton in H; injection H as -> ->; tauto.
Qed.

Lemma edit_sets_fit (now : string) (ticket : Ticket.t)
    (new_title new_desc new_priority new_tags new_assignee new_status : string) :
  new_status ∈ STATUSES → new_priority ∈ PRIORITIES →
  violated (edit_updates ticket new_title new_desc new_priority new_tags
              new_assignee new_status ++ [(col_updated_at, Some now)]) = None.
Proof.
  intros Hs Hp. apply violated_fits. intros c v Hc%assigned_Some_elem.
  apply elem_of_app in Hc as [Hc|Hc].
  - apply edit_updates_elem in Hc
      as [(-> & -> & _)|[[-> ->]|[[-> ->]|[[-> ->]|[[-> ->]|[-> ->]]]]]];
      simpl; try done;
      unfold Py.or_none; destruct (decide _); simpl; try done;
      unfold not_null_columns; intros Hin;
      repeat (apply elem_of_cons in Hin as [?|Hin]; [done|]);
      by apply elem_of_nil in Hin.
  - apply list_elem_of_singleton in Hc. by injection Hc as -> ->.
Qed.

Lemma edit_updates_keep (ticket : Ticket.t)
    (new_title new_desc new_priority new_tags new_assignee new_status : string)
    (c : column) :
  c = col_created_at ∨ c = col_requester ∨ c = col_updated_at →
  assigned c (edit_updates ticket new_title new_desc new_priority new_tags
                new_assignee new_status) = None.
Proof.
  intros Hc. destruct (assigned c _) as [v|] eqn:Hv; [|done].
  apply assigned_Some_elem, edit_updates_elem in Hv.
  destruct Hv as [(-> & _)|[[-> _]|[[-> _]|[[-> _]|[[-> _]|[-> _]]]]]];
    by destruct Hc as [?|[?|?]].
Qed.

(** X16. A ticket form saved with the values it was prefilled with changes
    nothing: no statement runs, the database is as it was and the form says
    that there is nothing to change. *)
Theorem edit_form_unchanged (now : string) (ticket : Ticket.t) (db : Database) :
  edit_ticket_form now ticket (Ticket.title ticket) (Ticket.description ticket)
    (Ticket.priority ticket) (default "" (Ticket.tags ticket))
    (default "" (Ticket.assignee ticket)) (Ticket.status ticket) db
  = (db, Return (info "Nothing to change.")).
Proof.
  unfold edit_ticket_form, edit_updates.
  rewrite !(decide_False (P := _ ≠ _)); [done|..]; intros H; apply H; try done.
  - by destruct (Ticket.assignee ticket).
  - by destruct (Ticket.tags ticket).
Qed.

(** X17. Saving the form of a ticket that [get_ticket] returned, with status
    and priority taken from the select boxes, never raises and never reports
    unsaved changes: either nothing differs and nothing is written, or the
    update succeeds; then the ticket has [updated_at] at the current time,
    every ticket keeps its id, its [created_at] and its requester, every other
    ticket is untouched, and so are the comments. *)
Theorem edit_form_saves (now : string) (sel_id : Z) (ticket : Ticket.t)
    (new_title new_desc new_priority new_tags new_assignee new_status : string)
    (db : Database) :
  get_ticket sel_id db = (db, Return (Some ticket)) →
  new_status ∈ STATUSES →
  new_priority ∈ PRIORITIES →
  edit_ticket_form now ticket new_title new_desc new_priority new_tags new_assignee
    new_status db = (db, Return (info "Nothing to change."))
  ∨ ∃ db',
      edit_ticket_form now ticket new_title new_desc new_priority new_tags
        new_assignee new_status db = (db', Return (success "Ticket updated."))
      ∧ comments db' = comments db
      ∧ Forall2
          (λ r r',
             Row.id r' = Row.id r
             ∧ Row.created_at r' = Row.created_at r
             ∧ Row.requester r' = Row.requester r
             ∧ if decide (Row.id r = sel_id) then Row.updated_at r' = now
               else r' = r)
          (tickets db) (tickets db').
Proof.
  intros (_ & Hin & row & hit & _ & Hid & ->)%get_ticket_Some Hs Hp.
  pose proof (edit_sets_fit now (ticket_of_row row) new_title new_desc new_priority
                new_tags new_assignee new_status Hs Hp) as Hfit.
  pose proof (edit_updates_keep (ticket_of_row row) new_title new_desc new_priority
                new_tags new_assignee new_status) as Hkeep.
  unfold edit_ticket_form.
  destruct (edit_updates _ _ _ _ _ _ _) as [|u updates] eqn:Hupd; [by left|right].
  cbn [ticket_of_row Ticket.id]. rewrite Hid. unfold mbind, M_bind.
  destruct (update_ticket_cases now sel_id (u :: updates) db)
    as [[_ [?|?]]|[(k & _ & _ & Hk)|(-> & _ & _ & Hok)]]; try done.
  { by rewrite Hfit in Hk. }
  eexists. split; [reflexivity|]. split; [done|]. cbn [tickets].
  apply Forall2_fmap_r, Forall_Forall2_diag, Forall_forall. intros r _. simpl.
  destruct (decide (Row.id r = sel_id)); [|done].
  pose proof (assign_column _ r col_updated_at Hok) as Hnow.
  pose proof (assign_unnamed (u :: updates ++ [(col_updated_at, Some now)]) r
                col_created_at) as Hcre.
  pose proof (assign_unnamed (u :: updates ++ [(col_updated_at, Some now)]) r
                col_requester) as Hreq.
  change (u :: updates ++ [(col_updated_at, Some now)])
    with ((u :: updates) ++ [(col_updated_at, Some now)]) in Hcre, Hreq.
  rewrite assigned_snoc in Hnow, Hcre, Hreq.
  rewrite decide_True in Hnow by done.
  rewrite decide_False in Hcre by done. rewrite decide_False in Hreq by done.
  rewrite Hkeep in Hcre by (by left). rewrite Hkeep in Hreq by (right; by left).
  simpl in Hnow, Hcre, Hreq. split; [done|].
  split; [by injection (Hcre eq_refl)|]. split; [by apply Hreq|].
  by injection Hnow.
Qed.

Lemma edit_form_saves_witness :
  edit_ticket_form "5" (ticket_of_row (Row.mk 2 "second" (Some "") "closed" "high"
                                          None None (Some "net") "2" "2"))
    "second one" "" "urgent" "net" "bob" "open" two_tickets
  = (two_tickets, Return (info "Nothing to change."))
  ∨ ∃ db',
      edit_ticket_form "5" (ticket_of_row (Row.mk 2 "second" (Some "") "closed" "high"
                                              None None (Some "net") "2" "2"))
        "second one" "" "urgent" "net" "bob" "open" two_tickets
      = (db', Return (success "Ticket updated."))
      ∧ comments db' = comments two_tickets
      ∧ Forall2
          (λ r r',
             Row.id r' = Row.id r
             ∧ Row.created_at r' = Row.created_at r
             ∧ Row.requester r' = Row.requester r
             ∧ if decide (Row.id r = 2) then Row.updated_at r' = "5"
               else r' = r)
          (tickets two_tickets) (tickets db').
Proof.
  apply (edit_form_saves "5" 2 _ "second one" "" "urgent" "net" "bob" "open"
           two_tickets).
  - reflexivity.
  - apply (bool_decide_unpack _). vm_compute. exact I.
  - apply (bool_decide_unpack _). vm_compute. exact I.
Defined.

Lemma assigned_first (c : column) (v : text) (sets : list (column * text)) :
  assigned c sets = None → assigned c ((c, v) :: sets) = Some v.
Proof. intros H. simpl. by rewrite H, decide_True. Qed.

(** X18. Unlike the create form, the edit form stores an empty title: when
    the title typed differs from the stored one and is blank, the update
    succeeds and the ticket then reads with the empty title. *)
Theorem edit_form_blank_title (now : string) (sel_id : Z) (ticket : Ticket.t)
    (new_title : string) (db : Database) :
  get_ticket sel_id db = (db, Return (Some ticket)) →
  new_title ≠ Ticket.title ticket →
  Py.strip new_title = "" →
  ∃ db' after,
    edit_ticket_form now ticket new_title (Ticket.description ticket)
      (Ticket.priority ticket) (default "" (Ticket.tags ticket))
      (default "" (Ticket.assignee ticket)) (Ticket.status ticket) db
    = (db', Return (success "Ticket updated."))
    ∧ get_ticket sel_id db' = (db', Return (Some after))
    ∧ Ticket.title after = "".
Proof.
  intros (_ & Hin & row & hit & Hhit & Hid & ->)%get_ticket_Some Hne Hblank.
  unfold edit_ticket_form, edit_updates.
  rewrite (decide_True (P := new_title ≠ _)) by done.
  rewrite !(decide_False (P := _ ≠ _));
    [|intros H; apply H; try done; simpl..].
  2: by destruct (Row.assignee row).
  2: by destruct (Row.tags row).
  cbn [app ticket_of_row Ticket.id]. rewrite Hid, Hblank.
  unfold mbind, M_bind. rewrite update_ticket_eq by done. cbv zeta.
  rewrite decide_True by done.
  change ([(col_title, Some "")] ++ [(col_updated_at, Some now)])
    with [(col_title, Some ""); (col_updated_at, Some now)].
  assert (violated [(col_title, Some ""); (col_updated_at, Some now)] = None) as ->
    by reflexivity.
  eexists _, _. split; [reflexivity|]. split.
  - rewrite get_ticket_eq. cbn [tickets].
    rewrite filter_id_fmap by (intros r; by destruct (decide _)).
    rewrite Hhit. reflexivity.
  - simpl. by rewrite decide_True.
Qed.

Lemma edit_form_blank_title_witness :
  ∃ db' after,
    edit_ticket_form "5" (ticket_of_row (Row.mk 2 "second" (Some "") "closed" "high"
                                            None None (Some "net") "2" "2"))
      "  " "" "high" "net" "" "closed" two_tickets
    = (db', Return (success "Ticket updated."))
    ∧ get_ticket 2 db' = (db', Return (Some after))
    ∧ Ticket.title after = "".
Proof.
  apply (edit_form_blank_title "5" 2
           (ticket_of_row (Row.mk 2 "second" (Some "") "closed" "high"
                             None None (Some "net") "2" "2")) "  " two_tickets).
  - reflexivity.
  - discriminate.
  - reflexivity.
Defined.

(** X19. The comment form of a ticket that [get_ticket] returned never
    raises.  With a blank comment it warns and writes nothing.  Otherwise it
    appends one comment to that ticket, with the body stripped and not empty
    and the author stripped, an empty author being stored as NULL; no ticket
    changes. *)
Theorem add_comment_form_appends (now : string) (ticket_id : Z) (ticket : Ticket.t)
    (c_author c_body : string) (db : Database) :
  get_ticket ticket_id db = (db, Return (Some ticket)) →
  (Py.strip c_body = ""
   ∧ add_comment_form now ticket_id c_author c_body db
     = (db, Return (warning "Comment cannot be empty.")))
  ∨ (∃ comment_id db',
       add_comment_form now ticket_id c_author c_body db
       = (db', Return (success "Comment added."))
       ∧ tickets db' = tickets db
       ∧ comments db'
         = comments db ++
             [Comment.mk comment_id ticket_id (Py.or_none (Py.strip c_author))
                (Py.strip c_body) now]
       ∧ Py.strip c_body ≠ ""
       ∧ Py.or_none (Py.strip c_author) ≠ Some "").
Proof.
  intros (_ & Hin & _)%get_ticket_Some. unfold add_comment_form.
  destruct (decide (Py.strip c_body = "")); [by left|right].
  unfold add_comment, mbind, M_bind, sql_insert_comment.
  rewrite decide_True by done. simpl.
  eexists _, _. split; [reflexivity|]. simpl.
  repeat split; try done. apply or_none_not_empty.
Qed.

Lemma add_comment_form_appends_witness :
  (Py.strip " looks fixed " = ""
   ∧ add_comment_form "6" 2 "" " looks fixed " two_tickets
     = (two_tickets, Return (warning "Comment cannot be empty.")))
  ∨ (∃ comment_id db',
       add_comment_form "6" 2 "" " looks fixed " two_tickets
       = (db', Return (success "Comment added."))
       ∧ tickets db' = tickets two_tickets
       ∧ comments db'
         = comments two_tickets ++
             [Comment.mk comment_id 2 (Py.or_none (Py.strip ""))
                (Py.strip " looks fixed ") "6"]
       ∧ Py.strip " looks fixed " ≠ ""
       ∧ Py.or_none (Py.strip "") ≠ Some "").
Proof.
  apply (add_comment_form_appends "6" 2
           (ticket_of_row (Row.mk 2 "second" (Some "") "closed" "high"
                             None None (Some "net") "2" "2")) "" " looks fixed "
           two_tickets).
  reflexivity.
Defined.

(** ** Sessions *)

Lemma bind_fst {A B} (m : M A) (f : A → B) (db : Database) :
  ((a ← m; mret (f a)) db).1 = (m db).1.
Proof. unfold mbind, M_bind. by destruct (m db) as [db' [a|e]]. Qed.

Lemma tab_list_reads (f_status f_priority f_assignee q : string) (db : Database) :
  (tab_list f_status f_priority f_assignee q db).1 = db.
Proof. unfold tab_list. by destruct (decide _). Qed.

(** What an action writes is what one method call writes, and the call
    does not assign [created_at]. *)
Lemma act_perform (now : string) (a : action) (db : Database) :
  act now a db = db
  ∨ ∃ c, keeps_created_at c ∧ act now a db = perform now c db.
Proof.
  destruct a as [title description requester assignee tags priority status
                |f_status f_priority f_assignee q
                |sel_id new_title new_desc new_priority new_tags new_assignee new_status
                |sel_id c_author c_body]; simpl.
  - unfold create_ticket_form. destruct (decide _); [by left|right].
    eexists (Create _). split; [done|]. simpl. apply bind_fst.
  - left. apply tab_list_reads.
  - destruct (decide (sel_id = 0)); [by left|]. rewrite get_ticket_eq.
    destruct (head _) as [row|]; simpl; [|by left].
    unfold edit_ticket_form.
    destruct (edit_updates _ _ _ _ _ _ _) as [|u updates] eqn:Hupd; [by left|right].
    exists (Update (Row.id row) (u :: updates)). split.
    + unfold keeps_created_at. rewrite <- Hupd.
      apply assigned_None, edit_updates_keep. by left.
    + simpl. apply bind_fst.
  - destruct (decide (sel_id = 0)); [by left|]. rewrite get_ticket_eq.
    destruct (head _) as [row|]; simpl; [|by left].
    unfold add_comment_form. destruct (decide _); [by left|right].
    eexists (AddComment _ _ _). split; [done|]. cbn [perform].
    apply (bind_fst (add_comment _ _ _ _) (λ _, success _)).
Qed.

(** X20. Whatever a session of the shell does to a database, a history of
    method calls made at readings of the same clock does too, and no update
    of that history assigns [created_at]. *)
Theorem session_is_history (actions : list (string * action)) (db : Database) :
  ∃ history,
    session actions db = run history db
    ∧ Forall keeps_created_at history.*2
    ∧ history.*1 `sublist_of` actions.*1.
Proof.
  revert db. induction actions as [|[now a] actions IH]; intros db.
  { by exists []. }
  simpl. destruct (act_perform now a db) as [->|(c & Hc & ->)].
  - destruct (IH db) as (history & ? & ? & ?). exists history.
    split; [done|]. split; [done|]. by apply sublist_cons.
  - destruct (IH (perform now c db)) as (history & ? & ? & ?).
    exists ((now, c) :: history). split; [done|].
    split; [by constructor|]. by apply sublist_skip.
Qed.

Lemma session_stamped (actions : list (string * action)) (t : string)
    (db : Database) :
  StronglySorted String.le (t :: actions.*1) →
  stamped_by t db →
  ∃ t', stamped_by t' (session actions db).
Proof.
  revert t db. induction actions as [|[now a] actions IH]; intros t db Hs Hdb.
  { by exists t. }
  simpl in *. apply StronglySorted_inv in Hs as [Hs Ht].
  apply Forall_cons in Ht as [Ht _].
  apply (IH now); [done|].
  destruct (act_perform now a db) as [->|(c & Hc & ->)].
  - by apply (stamped_by_later t).
  - by apply (perform_stamped t).
Qed.

(** X21. After every session of the shell on the fresh database, under a
    clock that never goes back, every ticket has [created_at ≤ updated_at]:
    the forms leave no way to assign [created_at]. *)
Theorem session_timestamps (actions : list (string * action)) :
  Sorted String.le actions.*1 →
  timestamps_ordered (session actions init_db).
Proof.
  intros Hmono.
  destruct (session_stamped actions (default "" (head actions.*1)) init_db)
    as [t' Ht']; [|by constructor|].
  - apply Sorted_StronglySorted; [apply _|].
    destruct (actions.*1) as [|t ts]; simpl; [repeat constructor|].
    constructor; [done|]. by constructor.
  - eapply Forall_impl; [exact Ht'|]. by intros r [? _].
Qed.

Lemma session_timestamps_witness : timestamps_ordered (session session_ok init_db).
Proof.
  apply (session_timestamps session_ok). simpl. repeat constructor.
Defined.
